(** * Event sources: persistence row, configuration codec and hydration

  A shallow embedding of
    - [zenml/zen_stores/schemas/event_source_schemas.py]
      ([EventSourceSchema.from_request], [to_model], [update]) and
    - [zenml/models/v2/core/event_source.py]
      (the request, update and response models, [get_hydrated_version],
      the body and metadata properties),
  together with executable models of the Python library calls the row
  uses to encode its configuration column: [json.dumps], [json.loads],
  [str.encode], [bytes.decode], [base64.b64encode], [base64.b64decode]
  and pydantic's [pydantic_encoder].

  Conventions.  A Python [str] is a list of code points, a [bytes] object
  a list of octets, both carried by [Z].  A call that may raise returns a
  [result]; a method that mutates [self] returns the object after the
  call next to its outcome.  Clock readings and fresh identifiers are
  explicit arguments. *)

From Stdlib Require Import ZArith List Bool Lia String Ascii.
Set Warnings "-register-all".
Import ListNotations.
Open Scope Z_scope.

(* ================================================================== *)
(** * Part I: definitions                                              *)
(* ================================================================== *)

(** ** Python values, exceptions and results *)

Module Py.

(** Exception classes that the modelled calls can raise.  The last one,
    [CorruptionError], is the class named by the specification of the
    codec; no call modelled below constructs it. *)
Inductive exn : Type :=
| TypeError            (* json.dumps: object not JSON serializable *)
| BinasciiError        (* binascii.Error, raised by base64.b64decode *)
| UnicodeDecodeError   (* bytes.decode *)
| UnicodeEncodeError   (* str.encode *)
| JSONDecodeError      (* json.loads *)
| RecursionError       (* interpreter recursion limit *)
| AttributeError       (* attribute access on an object that lacks it *)
| ValidationError      (* pydantic field validation *)
| KeyError             (* store lookup of an absent id *)
| CorruptionError.

Inductive result (A : Type) : Type :=
| Ok (a : A)
| Raise (e : exn).
Arguments Ok {A} a.
Arguments Raise {A} e.

Definition bind {A B} (r : result A) (k : A -> result B) : result B :=
  match r with
  | Ok a => k a
  | Raise e => Raise e
  end.

(** A [str]: the sequence of its code points. *)
Definition str := list Z.
(** A [bytes] object: the sequence of its octets. *)
Definition bytes := list Z.

Definition ord (a : ascii) : Z := Z.of_N (N_of_ascii a).

(** The [str] written as an ASCII literal. *)
Definition lit (s : string) : str := map ord (list_ascii_of_string s).

Definition str_eqb (a b : str) : bool :=
  if list_eq_dec Z.eq_dec a b then true else false.

(** Objects that [json] cannot serialize by itself.  [uuid.UUID] and
    [datetime.datetime] are carried by their canonical text ([str(u)],
    [d.isoformat()]); [Opaque] stands for an instance of a class that no
    encoder knows. *)
Inductive object : Type :=
| UUIDObj (text : str)
| DatetimeObj (iso : str)
| Opaque (class_name : str).

(** The values a [Dict[str, Any]] configuration is built from.  A [dict]
    is the list of its items in insertion order.  A [float] is carried by
    a decimal literal denoting it: [float.__repr__] prints that literal
    and [float(literal)] gives the float back, which is Python's guarantee
    for [repr] and is not derived here (binary64 rounding is outside the
    embedding). *)
Inductive value : Type :=
| None_
| Bool (b : bool)
| Int (z : Z)
| Float (literal : str)
| Str (s : str)
| List_ (items : list value)
| Dict (items : list (str * value))
| Obj (o : object).

(** The results of [f] on the items of [l], in order; the first exception
    ends the traversal. *)
Definition mapM {A B} (f : A -> result B) : list A -> result (list B) :=
  fix go (l : list A) : result (list B) :=
    match l with
    | [] => Ok []
    | x :: l' =>
        match f x with
        | Ok y => match go l' with
                  | Ok ys => Ok (y :: ys)
                  | Raise e => Raise e
                  end
        | Raise e => Raise e
        end
    end.

(** [dict.__setitem__]: an existing key keeps its position and takes the
    new value, a new key is appended. *)
Fixpoint dict_set (d : list (str * value)) (k : str) (v : value)
  : list (str * value) :=
  match d with
  | [] => [(k, v)]
  | (k', v') :: d' =>
      if str_eqb k' k then (k', v) :: d' else (k', v') :: dict_set d' k v
  end.

(** A Unicode scalar value: a code point that is not a surrogate. *)
Definition scalar (c : Z) : bool :=
  (0 <=? c) && (c <=? 0x10FFFF) && negb ((0xD800 <=? c) && (c <=? 0xDFFF)).

Definition text (s : str) : bool := forallb scalar s.

Fixpoint distinct (keys : list str) : bool :=
  match keys with
  | [] => true
  | k :: ks => negb (existsb (str_eqb k) ks) && distinct ks
  end.

End Py.

Notation "x <- r ;; k" := (Py.bind r (fun x => k))
(at level 61, r at next level, right associativity).

(** ** [base64.b64encode] and [base64.b64decode] *)

Module Base64.
Import Py.

Definition BASE64_PAD : Z := 61.  (* '=' *)

Definition table_b2a_base64 : list Z :=
  lit "ABCDEFGHIJKLMNOPQRSTUVWXYZabcdefghijklmnopqrstuvwxyz0123456789+/".

Definition b2a (sextet : Z) : Z := nth (Z.to_nat sextet) table_b2a_base64 0.

(** [base64.b64encode(s)]: every three octets give four characters of the
    alphabet; a final group of one or two octets is padded with '='. *)
Fixpoint b64encode (s : bytes) : bytes :=
  match s with
  | [] => []
  | [a] =>
      [b2a (Z.shiftr a 2); b2a (Z.shiftl (Z.land a 3) 4);
       BASE64_PAD; BASE64_PAD]
  | [a; b] =>
      [b2a (Z.shiftr a 2);
       b2a (Z.lor (Z.shiftl (Z.land a 3) 4) (Z.shiftr b 4));
       b2a (Z.shiftl (Z.land b 15) 2);
       BASE64_PAD]
  | a :: b :: c :: rest =>
      b2a (Z.shiftr a 2)
      :: b2a (Z.lor (Z.shiftl (Z.land a 3) 4) (Z.shiftr b 4))
      :: b2a (Z.lor (Z.shiftl (Z.land b 15) 2) (Z.shiftr c 6))
      :: b2a (Z.land c 63)
      :: b64encode rest
  end.

(** [table_a2b_base64]: the sextet of an alphabet character, 64 for any
    other octet. *)
Definition a2b (ch : Z) : Z :=
  if (65 <=? ch) && (ch <=? 90) then ch - 65
  else if (97 <=? ch) && (ch <=? 122) then ch - 71
  else if (48 <=? ch) && (ch <=? 57) then ch + 4
  else if ch =? 43 then 62
  else if ch =? 47 then 63
  else 64.

(** The scanning loop of [binascii.a2b_base64] in its default, lenient
    mode ([b64decode] with [validate=False]): octets outside the alphabet
    are skipped, a pad that completes a quad ends the scan, a dangling
    partial quad is an error.  [out] is the output so far, reversed. *)
Fixpoint a2b_loop (s : bytes) (quad_pos : Z) (leftchar : Z) (pads : Z)
         (out : bytes) : result bytes :=
  match s with
  | [] => if quad_pos =? 0 then Ok (rev out) else Raise BinasciiError
  | this_ch :: s' =>
      if this_ch =? BASE64_PAD then
        if (2 <=? quad_pos) && (4 <=? quad_pos + (pads + 1))
        then Ok (rev out)
        else a2b_loop s' quad_pos leftchar
                      (if 2 <=? quad_pos then pads + 1 else pads) out
      else
        let d := a2b this_ch in
        if 64 <=? d then a2b_loop s' quad_pos leftchar pads out
        else if quad_pos =? 0 then a2b_loop s' 1 d 0 out
        else if quad_pos =? 1 then
          a2b_loop s' 2 (Z.land d 15) 0
                   (Z.lor (Z.shiftl leftchar 2) (Z.shiftr d 4) :: out)
        else if quad_pos =? 2 then
          a2b_loop s' 3 (Z.land d 3) 0
                   (Z.lor (Z.shiftl leftchar 4) (Z.shiftr d 2) :: out)
        else
          a2b_loop s' 0 0 0 (Z.lor (Z.shiftl leftchar 6) d :: out)
  end.

Definition b64decode (s : bytes) : result bytes := a2b_loop s 0 0 0 [].

End Base64.

(** ** [str.encode("utf-8")] and [bytes.decode()] *)

Module Utf8.
Import Py.

Definition is_surrogate (c : Z) : bool := (0xD800 <=? c) && (c <=? 0xDFFF).

Definition cont (c : Z) (shift : Z) : Z :=
  Z.lor 0x80 (Z.land (Z.shiftr c shift) 0x3F).

(** The UTF-8 octets of one code point; a surrogate cannot be encoded. *)
Definition encode_char (c : Z) : result bytes :=
  if (c <? 0) || (0x10FFFF <? c) || is_surrogate c then
    Raise UnicodeEncodeError
  else if c <? 0x80 then Ok [c]
  else if c <? 0x800 then Ok [Z.lor 0xC0 (Z.shiftr c 6); cont c 0]
  else if c <? 0x10000 then
    Ok [Z.lor 0xE0 (Z.shiftr c 12); cont c 6; cont c 0]
  else Ok [Z.lor 0xF0 (Z.shiftr c 18); cont c 12; cont c 6; cont c 0].

Fixpoint encode (s : str) : result bytes :=
  match s with
  | [] => Ok []
  | c :: s' =>
      b <- encode_char c ;;
      bs <- encode s' ;;
      Ok (b ++ bs)
  end.

Definition is_cont (b : Z) : bool := (0x80 <=? b) && (b <=? 0xBF).

Definition payload (b : Z) : Z := Z.land b 0x3F.

(** Strict decoding: truncated, overlong, surrogate and out-of-range
    sequences are errors. *)
Fixpoint decode (s : bytes) : result str :=
  match s with
  | [] => Ok []
  | b0 :: s1 =>
      if (0 <=? b0) && (b0 <? 0x80) then
        cs <- decode s1 ;; Ok (b0 :: cs)
      else if (0xC0 <=? b0) && (b0 <=? 0xDF) then
        match s1 with
        | b1 :: s2 =>
            let c := Z.lor (Z.shiftl (Z.land b0 0x1F) 6) (payload b1) in
            if is_cont b1 && (0x80 <=? c)
            then cs <- decode s2 ;; Ok (c :: cs)
            else Raise UnicodeDecodeError
        | _ => Raise UnicodeDecodeError
        end
      else if (0xE0 <=? b0) && (b0 <=? 0xEF) then
        match s1 with
        | b1 :: b2 :: s3 =>
            let c := Z.lor (Z.shiftl (Z.land b0 0x0F) 12)
                           (Z.lor (Z.shiftl (payload b1) 6) (payload b2)) in
            if is_cont b1 && is_cont b2 && (0x800 <=? c)
               && negb (is_surrogate c)
            then cs <- decode s3 ;; Ok (c :: cs)
            else Raise UnicodeDecodeError
        | _ => Raise UnicodeDecodeError
        end
      else if (0xF0 <=? b0) && (b0 <=? 0xF7) then
        match s1 with
        | b1 :: b2 :: b3 :: s4 =>
            let c := Z.lor (Z.shiftl (Z.land b0 0x07) 18)
                       (Z.lor (Z.shiftl (payload b1) 12)
                          (Z.lor (Z.shiftl (payload b2) 6) (payload b3))) in
            if is_cont b1 && is_cont b2 && is_cont b3
               && (0x10000 <=? c) && (c <=? 0x10FFFF)
            then cs <- decode s4 ;; Ok (c :: cs)
            else Raise UnicodeDecodeError
        | _ => Raise UnicodeDecodeError
        end
      else Raise UnicodeDecodeError
  end.

End Utf8.

(** ** [json.dumps] and [json.loads] *)

Module Json.
Import Py.

(** *** Serialization *)

Definition hexdigit (d : Z) : Z := if d <? 10 then 48 + d else 87 + d.

(** ['\\u{0:04x}'.format(n)] *)
Definition u_escape (n : Z) : str :=
  [92; 117;
   hexdigit (Z.land (Z.shiftr n 12) 15); hexdigit (Z.land (Z.shiftr n 8) 15);
   hexdigit (Z.land (Z.shiftr n 4) 15); hexdigit (Z.land n 15)].

(** The replacement of one character by [encode_basestring_ascii]:
    printable ASCII other than the quote and the backslash stands for
    itself, the rest is escaped. *)
Definition escape_char (c : Z) : str :=
  if c =? 34 then [92; 34]              (* \ and the quote *)
  else if c =? 92 then [92; 92]         (* two backslashes *)
  else if (32 <=? c) && (c <=? 126) then [c]
  else if c =? 8 then [92; 98]          (* \b *)
  else if c =? 12 then [92; 102]        (* \f *)
  else if c =? 10 then [92; 110]        (* \n *)
  else if c =? 13 then [92; 114]        (* \r *)
  else if c =? 9 then [92; 116]         (* \t *)
  else if c <? 0x10000 then u_escape c
  else
    let n := c - 0x10000 in
    u_escape (Z.lor 0xD800 (Z.land (Z.shiftr n 10) 0x3FF))
    ++ u_escape (Z.lor 0xDC00 (Z.land n 0x3FF)).

Definition encode_basestring_ascii (s : str) : str :=
  34 :: flat_map escape_char s ++ [34].

(** The decimal digits of a natural number, least significant first. *)
Fixpoint digits_lsf (fuel : nat) (n : Z) : list Z :=
  match fuel with
  | O => []
  | S fuel' =>
      if n <? 10 then [n] else (n mod 10) :: digits_lsf fuel' (n / 10)
  end.

Definition nat_repr (n : Z) : str :=
  map (fun d => 48 + d) (rev (digits_lsf (S (Z.to_nat (Z.log2 n))) n)).

(** [int.__repr__] *)
Definition int_repr (z : Z) : str :=
  if z <? 0 then 45 :: nat_repr (- z) else nat_repr z.

(** [', '.join(chunks)] *)
Fixpoint join (chunks : list str) : str :=
  match chunks with
  | [] => []
  | [c] => c
  | c :: cs => c ++ lit ", " ++ join cs
  end.

Definition key_chunk (k : str) (c : str) : str :=
  encode_basestring_ascii k ++ lit ": " ++ c.

Section Encoder.

(** The [default=] hook of [json.dumps]; [None] when the call passes
    none. *)
Variable default : option (object -> result value).

(** [JSONEncoder.iterencode] with the defaults of [json.dumps]
    ([ensure_ascii=True], separators [", "] and [": "], no indent,
    [sort_keys=False]).  An object that is not natively serializable
    is handed to [default] and the value it returns is encoded in its
    place; [depth] bounds the chain of such calls. *)
Fixpoint iterencode (depth : nat) : value -> result str :=
  fix enc (v : value) : result str :=
    match v with
    | None_ => Ok (lit "null")
    | Bool true => Ok (lit "true")
    | Bool false => Ok (lit "false")
    | Int z => Ok (int_repr z)
    | Float literal => Ok literal
    | Str s => Ok (encode_basestring_ascii s)
    | List_ items =>
        chunks <- mapM enc items ;;
        Ok (lit "[" ++ join chunks ++ lit "]")
    | Dict items =>
        chunks <- mapM (fun kv : str * value => let (k, x) := kv in
                                  c <- enc x ;; Ok (key_chunk k c))
                       items ;;
        Ok (lit "{" ++ join chunks ++ lit "}")
    | Obj o =>
        match default with
        | None => Raise TypeError
        | Some f =>
            match depth with
            | O => Raise RecursionError
            | S depth' => v' <- f o ;; iterencode depth' v'
            end
        end
    end.

End Encoder.

(** The interpreter's recursion limit ([sys.getrecursionlimit()]). *)
Definition recursion_limit : nat := 1000.

(** [json.dumps(obj, sort_keys=False, default=default)]; [sort_keys] is
    [False] whether or not the call says so. *)
Definition dumps (default : option (object -> result value)) (obj : value)
  : result str :=
  iterencode default recursion_limit obj.

(** *** Parsing *)

Definition is_ws (c : Z) : bool :=
  (c =? 32) || (c =? 9) || (c =? 10) || (c =? 13).

Fixpoint skip_ws (s : str) : str :=
  match s with
  | c :: s' => if is_ws c then skip_ws s' else s
  | [] => []
  end.

Definition is_digit (c : Z) : bool := (48 <=? c) && (c <=? 57).

Definition hexval (c : Z) : option Z :=
  if is_digit c then Some (c - 48)
  else if (97 <=? c) && (c <=? 102) then Some (c - 87)
  else if (65 <=? c) && (c <=? 70) then Some (c - 55)
  else None.

Definition hex4 (a b c d : Z) : option Z :=
  match hexval a, hexval b, hexval c, hexval d with
  | Some x, Some y, Some z, Some w =>
      Some (Z.lor (Z.shiftl (Z.lor (Z.shiftl (Z.lor (Z.shiftl x 4) y) 4) z) 4)
                  w)
  | _, _, _, _ => None
  end.

(** The [BACKSLASH] table of the decoder. *)
Definition backslash (esc : Z) : option Z :=
  if esc =? 34 then Some 34
  else if esc =? 92 then Some 92
  else if esc =? 47 then Some 47
  else if esc =? 98 then Some 8
  else if esc =? 102 then Some 12
  else if esc =? 110 then Some 10
  else if esc =? 114 then Some 13
  else if esc =? 116 then Some 9
  else None.

Definition is_high_surrogate (c : Z) : bool := (0xD800 <=? c) && (c <=? 0xDBFF).
Definition is_low_surrogate (c : Z) : bool := (0xDC00 <=? c) && (c <=? 0xDFFF).

Definition join_surrogates (hi lo : Z) : Z :=
  0x10000 + Z.lor (Z.shiftl (hi - 0xD800) 10) (lo - 0xDC00).

(** [scanstring] in strict mode, entered after the opening quote; [acc]
    holds the characters read so far, reversed. *)
Fixpoint scanstring (s : str) (acc : str) : result (str * str) :=
  match s with
  | [] => Raise JSONDecodeError
  | c :: s1 =>
      if c =? 34 then Ok (rev acc, s1)
      else if c =? 92 then
        match s1 with
        | [] => Raise JSONDecodeError
        | esc :: s2 =>
            if esc =? 117 then
              match s2 with
              | h1 :: h2 :: h3 :: h4 :: s3 =>
                  match hex4 h1 h2 h3 h4 with
                  | None => Raise JSONDecodeError
                  | Some uni =>
                      if is_high_surrogate uni then
                        match s3 with
                        | b :: u :: k1 :: k2 :: k3 :: k4 :: s4 =>
                            if (b =? 92) && (u =? 117) then
                              match hex4 k1 k2 k3 k4 with
                              | None => Raise JSONDecodeError
                              | Some uni2 =>
                                  if is_low_surrogate uni2
                                  then scanstring s4
                                         (join_surrogates uni uni2 :: acc)
                                  else scanstring s3 (uni :: acc)
                              end
                            else scanstring s3 (uni :: acc)
                        | _ => scanstring s3 (uni :: acc)
                        end
                      else scanstring s3 (uni :: acc)
                  end
              | _ => Raise JSONDecodeError
              end
            else
              match backslash esc with
              | Some ch => scanstring s2 (ch :: acc)
              | None => Raise JSONDecodeError
              end
        end
      else if c <? 32 then Raise JSONDecodeError
      else scanstring s1 (c :: acc)
  end.

(** The longest run of decimal digits at the head of [s]. *)
Fixpoint span_digits (s : str) : str * str :=
  match s with
  | c :: s' =>
      if is_digit c then let (ds, r) := span_digits s' in (c :: ds, r)
      else ([], s)
  | [] => ([], [])
  end.

(** [int(digits)] for a run of decimal digits. *)
Definition int_of_digits (ds : str) : Z :=
  fold_left (fun a c => 10 * a + (c - 48)) ds 0.

(** The integer part of the number pattern, [0|[1-9]\d*]. *)
Definition match_integer (s : str) : option (str * str) :=
  match s with
  | c :: s' =>
      if c =? 48 then Some ([48], s')
      else if is_digit c then
        let (ds, r) := span_digits s' in Some (c :: ds, r)
      else None
  | [] => None
  end.

(** [s] starts with the literal [w]; the remainder. *)
Fixpoint strip_prefix (w s : str) : option str :=
  match w, s with
  | [], _ => Some s
  | a :: w', b :: s' => if a =? b then strip_prefix w' s' else None
  | _ :: _, [] => None
  end.

(** [s] starts with the character [c]; the remainder. *)
Definition head_is (c : Z) (s : str) : option str := strip_prefix [c] s.

(** The optional fraction, [(\.\d+)?]. *)
Definition match_frac (s : str) : str * str :=
  match head_is 46 s with
  | Some s' =>
      match span_digits s' with
      | ([], _) => ([], s)
      | (ds, r) => (46 :: ds, r)
      end
  | None => ([], s)
  end.

(** The optional exponent, [([eE][-+]?\d+)?]. *)
Definition match_exp (s : str) : str * str :=
  match s with
  | e :: s' =>
      if (e =? 101) || (e =? 69) then
        let (sign, s'') :=
          match s' with
          | c :: t => if (c =? 45) || (c =? 43) then ([c], t) else ([], s')
          | [] => ([], s')
          end in
        match span_digits s'' with
        | ([], _) => ([], s)
        | (ds, r) => (e :: sign ++ ds, r)
        end
      else ([], s)
  | [] => ([], s)
  end.

(** [_match_number]: an integer literal gives an [int], a literal with a
    fraction or an exponent a [float]. *)
Definition match_number (s : str) : result (value * str) :=
  let (neg, s0) :=
    match head_is 45 s with
    | Some t => (true, t)
    | None => (false, s)
    end in
  match match_integer s0 with
  | None => Raise JSONDecodeError
  | Some (ip, s1) =>
      let (frac, s2) := match_frac s1 in
      let (exp, s3) := match_exp s2 in
      match frac, exp with
      | [], [] =>
          Ok (Int (if neg then - int_of_digits ip else int_of_digits ip), s3)
      | _, _ =>
          Ok (Float ((if neg then [45] else []) ++ ip ++ frac ++ exp), s3)
      end
  end.

(** The constants [scan_once] recognizes by name. *)
Definition constants : list (str * value) :=
  [(lit "null", None_); (lit "true", Bool true); (lit "false", Bool false);
   (lit "NaN", Float (lit "NaN")); (lit "Infinity", Float (lit "Infinity"));
   (lit "-Infinity", Float (lit "-Infinity"))].

Fixpoint match_constant (table : list (str * value)) (s : str)
  : option (value * str) :=
  match table with
  | [] => None
  | (w, v) :: table' =>
      match strip_prefix w s with
      | Some r => Some (v, r)
      | None => match_constant table' s
      end
  end.

(** [scan_once] with the loops of [JSONObject] and [JSONArray].  A
    nested value costs two units of [fuel] and at least one character,
    so [fuel] above twice the length of the text is never exhausted. *)
Fixpoint scan_once (fuel : nat) (s : str) {struct fuel}
  : result (value * str) :=
  match fuel with
  | O => Raise RecursionError
  | S fuel' =>
      match s with
      | [] => Raise JSONDecodeError
      | c :: s' =>
          if c =? 34 then
            r <- scanstring s' [] ;; Ok (Str (fst r), snd r)
          else if c =? 123 then
            match head_is 125 (skip_ws s') with
            | Some s'' => Ok (Dict [], s'')
            | None => parse_object fuel' (skip_ws s') []
            end
          else if c =? 91 then
            match head_is 93 (skip_ws s') with
            | Some s'' => Ok (List_ [], s'')
            | None => parse_array fuel' (skip_ws s') []
            end
          else
            match match_constant constants s with
            | Some r => Ok r
            | None => match_number s
            end
      end
  end

with parse_object (fuel : nat) (s : str) (pairs : list (str * value))
       {struct fuel} : result (value * str) :=
  match fuel with
  | O => Raise RecursionError
  | S fuel' =>
      match head_is 34 s with
      | Some s1 =>
          k <- scanstring s1 [] ;;
          match head_is 58 (skip_ws (snd k)) with
          | Some s2 =>
              v <- scan_once fuel' (skip_ws s2) ;;
              let pairs' := dict_set pairs (fst k) (fst v) in
              let s3 := skip_ws (snd v) in
              match head_is 125 s3 with
              | Some s4 => Ok (Dict pairs', s4)
              | None =>
                  match head_is 44 s3 with
                  | Some s4 => parse_object fuel' (skip_ws s4) pairs'
                  | None => Raise JSONDecodeError
                  end
              end
          | None => Raise JSONDecodeError
          end
      | None => Raise JSONDecodeError
      end
  end

with parse_array (fuel : nat) (s : str) (values : list value)
       {struct fuel} : result (value * str) :=
  match fuel with
  | O => Raise RecursionError
  | S fuel' =>
      v <- scan_once fuel' s ;;
      let s1 := skip_ws (snd v) in
      match head_is 93 s1 with
      | Some s2 => Ok (List_ (rev (fst v :: values)), s2)
      | None =>
          match head_is 44 s1 with
          | Some s2 => parse_array fuel' (skip_ws s2) (fst v :: values)
          | None => Raise JSONDecodeError
          end
      end
  end.

(** [json.loads(s)]: a leading byte order mark is refused, white space
    around the document is skipped, anything after it is an error. *)
Definition loads (s : str) : result value :=
  match head_is 0xFEFF s with
  | Some _ => Raise JSONDecodeError
  | None =>
      r <- scan_once (S (2 * List.length s)) (skip_ws s) ;;
      match skip_ws (snd r) with
      | [] => Ok (fst r)
      | _ => Raise JSONDecodeError
      end
  end.

(** *** The JSON data model *)

(** A decimal literal that [_match_number] reads, whole, as a [float]:
    one with a fraction or an exponent. *)
Definition float_literal (l : str) : bool :=
  match match_number l with
  | Ok (Float l', []) => str_eqb l' l
  | _ => false
  end.

(** The JSON data model inside [value]: null, booleans, integers, floats
    written as a decimal literal, text strings, arrays, and objects with
    pairwise distinct text keys.  [NaN], the infinities and foreign
    objects are left out. *)
Fixpoint json_compatible (v : value) : bool :=
  match v with
  | None_ | Bool _ | Int _ => true
  | Float l => float_literal l
  | Str s => text s
  | List_ items => forallb json_compatible items
  | Dict items =>
      forallb (fun kv : str * value =>
                 let (k, x) := kv in text k && json_compatible x)
              items
      && distinct (map fst items)
  | Obj _ => false
  end.

End Json.

(** ** pydantic *)

Module Pydantic.
Import Py.

(** [pydantic.json.pydantic_encoder]: the encoder registered for the
    class of the object, [TypeError] when there is none. *)
Definition pydantic_encoder (o : object) : result value :=
  match o with
  | UUIDObj text => Ok (Str text)            (* str(obj) *)
  | DatetimeObj iso => Ok (Str iso)          (* obj.isoformat() *)
  | Opaque _ => Raise TypeError
  end.

(** Validation of a field annotated [Dict[str, Any]] on the value handed
    to the model constructor.  A [dict] is taken as it is; the coercions
    pydantic may try on another value are left out and the value is
    refused. *)
Definition validate_dict (v : value) : result (list (str * value)) :=
  match v with
  | Dict items => Ok items
  | _ => Raise ValidationError
  end.

End Pydantic.

(** ** Effects: what a call does besides returning *)

Module Effects.
Import Py.

Definition UUID := str.       (* a uuid.UUID, by its canonical text *)
Definition datetime := Z.     (* a naive UTC datetime, in microseconds *)

Inductive event : Type :=
| UserToModel              (* UserSchema.to_model *)
| WorkspaceToModel         (* WorkspaceSchema.to_model: scope resolution *)
| ConfigurationDecode      (* json.loads(base64.b64decode(..).decode()) *)
| StoreFetch (id : UUID).  (* zen_store.get_event_source(id) *)

(** A computation: the events it performed, in order, and its outcome. *)
Definition run (A : Type) : Type := list event * result A.

Definition ret {A} (a : A) : run A := ([], Ok a).
Definition raise {A} (e : exn) : run A := ([], Raise e).
Definition tick (ev : event) : run unit := ([ev], Ok tt).
Definition lift {A} (r : result A) : run A := ([], r).

Definition rbind {A B} (m : run A) (k : A -> run B) : run B :=
  match m with
  | (t, Ok a) => let (t', r) := k a in (t ++ t', r)
  | (t, Raise e) => (t, Raise e)
  end.

Definition trace {A} (m : run A) : list event := fst m.
Definition outcome {A} (m : run A) : result A := snd m.

Definition is_fetch (ev : event) : bool :=
  match ev with StoreFetch _ => true | _ => false end.

Definition count (p : event -> bool) (t : list event) : nat :=
  List.length (filter p t).

End Effects.

Notation "x <~ m ;; k" := (Effects.rbind m (fun x => k))
(at level 61, m at next level, right associativity).

(** ** The collaborators of the row *)

(** Modelled from the spec: the user and workspace schemas and their
  response models (the scope collaborators of section 6) are not part of
  the sources at hand; a row and its response carry the identity and the
  name. *)
Module UserSchema.
Import Py Effects.
Record t : Type := mk { id : UUID; name : str }.
End UserSchema.

Module UserResponse.
Import Py Effects.
Record t : Type := mk { id : UUID; name : str }.
End UserResponse.

Module WorkspaceSchema.
Import Py Effects.
Record t : Type := mk { id : UUID; name : str }.
End WorkspaceSchema.

Module WorkspaceResponse.
Import Py Effects.
Record t : Type := mk { id : UUID; name : str }.
End WorkspaceResponse.

Definition user_to_model (u : UserSchema.t) : UserResponse.t :=
UserResponse.mk (UserSchema.id u) (UserSchema.name u).

Definition workspace_to_model (w : WorkspaceSchema.t) : WorkspaceResponse.t :=
WorkspaceResponse.mk (WorkspaceSchema.id w) (WorkspaceSchema.name w).

(** ** The models of [zenml/models/v2/core/event_source.py] *)

Module EventSourceRequest.
Import Py Effects.

(** [workspace] and [user] are the fields of the scoped request base
    class that [from_request] reads; the owner is optional. *)
Record t : Type := mk {
  user : option UUID;
  workspace : UUID;
  name : str;
  flavor : str;
  plugin_type : str;
  plugin_subtype : str;
  description : str;
  configuration : list (str * value)
}.
End EventSourceRequest.

Module EventSourceUpdate.
Import Py Effects.

(** The update model has the fields of the request, each of them
    optional, and [rotate_secret].  [None] is a field that was not set;
    [rotate_secret] is an [Optional[bool]], so it can be set to [None]. *)
Record t : Type := mk {
  user : option UUID;
  workspace : option UUID;
  name : option str;
  flavor : option str;
  plugin_type : option str;
  plugin_subtype : option str;
  description : option str;
  configuration : option (list (str * value));
  rotate_secret : option (option bool)
}.

Definition item {A} (field : string) (inj : A -> value) (x : option A)
  : list (string * value) :=
  match x with
  | Some a => [(field, inj a)]
  | None => []
  end.

Definition uuid_value (u : UUID) : value := Obj (UUIDObj u).

Definition optional_bool (b : option bool) : value :=
  match b with Some b' => Bool b' | None => None_ end.

(** [update.dict(exclude_unset=True).items()]: the fields that were
    set, in declaration order, with their values. *)
Definition dict_exclude_unset (u : t) : list (string * value) :=
  item "user" uuid_value (user u)
  ++ item "workspace" uuid_value (workspace u)
  ++ item "name" Str (name u)
  ++ item "flavor" Str (flavor u)
  ++ item "plugin_type" Str (plugin_type u)
  ++ item "plugin_subtype" Str (plugin_subtype u)
  ++ item "description" Str (description u)
  ++ item "configuration" Dict (configuration u)
  ++ item "rotate_secret" optional_bool (rotate_secret u).

(** The attribute [update.configuration]. *)
Definition configuration_attr (u : t) : value :=
  match configuration u with
  | Some c => Dict c
  | None => None_
  end.

Definition empty : t :=
  mk None None None None None None None None None.
End EventSourceUpdate.

Module EventSourceResponseBody.
Import Py Effects.
Record t : Type := mk {
  created : datetime;
  updated : datetime;
  user : option UserResponse.t;
  flavor : str;
  plugin_type : str;
  plugin_subtype : str
}.
End EventSourceResponseBody.

Module EventSourceResponseMetadata.
Import Py Effects.
Record t : Type := mk {
  workspace : WorkspaceResponse.t;
  description : str;
  configuration : list (str * value)
}.
End EventSourceResponseMetadata.

Module EventSourceResponse.
Import Py Effects.
Record t : Type := mk {
  id : UUID;
  name : str;
  body : option EventSourceResponseBody.t;
  metadata : option EventSourceResponseMetadata.t
}.

Definition set_metadata (self : t) (m : option EventSourceResponseMetadata.t)
  : t :=
  mk (id self) (name self) (body self) m.
End EventSourceResponse.

(** ** The row: [zenml/zen_stores/schemas/event_source_schemas.py] *)

Module EventSourceSchema.
Import Py Effects.

(** A relationship attribute of the row: empty, a loaded schema object,
    or whatever other value was assigned to it. *)
Inductive relationship (A : Type) : Type :=
| Empty
| Loaded (a : A)
| Assigned (v : value).
Arguments Empty {A}.
Arguments Loaded {A} a.
Arguments Assigned {A} v.

Record t : Type := mk {
  id : UUID;
  created : datetime;
  updated : datetime;
  name : str;
  workspace_id : UUID;
  workspace : relationship WorkspaceSchema.t;
  user_id : option UUID;
  user : relationship UserSchema.t;
  triggers : list UUID;
  flavor : str;
  plugin_type : str;
  plugin_subtype : str;
  description : str;
  configuration : bytes
}.

(** The encoding of the configuration column:
    [base64.b64encode(json.dumps(c, default=default).encode("utf-8"))]. *)
Definition encode_configuration
           (default : option (object -> result value)) (c : value)
  : result bytes :=
  txt <- Json.dumps default c ;;
  raw <- Utf8.encode txt ;;
  Ok (Base64.b64encode raw).

(** Its decoding: [json.loads(base64.b64decode(blob).decode())]. *)
Definition decode_configuration (blob : bytes) : result value :=
  raw <- Base64.b64decode blob ;;
  txt <- Utf8.decode raw ;;
  Json.loads txt.

(** [EventSourceSchema.from_request(request)].  The identifier and the
    two timestamps are the defaults of the base schema, taken here as
    arguments; the relationship attributes are not passed. *)
Definition from_request (new_id : UUID) (now : datetime)
           (request : EventSourceRequest.t) : result t :=
  blob <- encode_configuration (Some Pydantic.pydantic_encoder)
            (Dict (EventSourceRequest.configuration request)) ;;
  Ok {| id := new_id;
        created := now;
        updated := now;
        name := EventSourceRequest.name request;
        workspace_id := EventSourceRequest.workspace request;
        workspace := Empty;
        user_id := EventSourceRequest.user request;
        user := Empty;
        triggers := [];
        flavor := EventSourceRequest.flavor request;
        plugin_type := EventSourceRequest.plugin_type request;
        plugin_subtype := EventSourceRequest.plugin_subtype request;
        description := EventSourceRequest.description request;
        configuration := blob |}.

(** [self.user.to_model() if self.user else None] *)
Definition resolve_user (self : t) : run (option UserResponse.t) :=
  match user self with
  | Empty => ret None
  | Loaded u => _ <~ tick UserToModel ;; ret (Some (user_to_model u))
  | Assigned None_ => ret None
  | Assigned _ => raise AttributeError
  end.

(** [self.workspace.to_model()] *)
Definition resolve_workspace (self : t) : run WorkspaceResponse.t :=
  match workspace self with
  | Loaded w => _ <~ tick WorkspaceToModel ;; ret (workspace_to_model w)
  | _ => raise AttributeError
  end.

(** [EventSourceSchema.to_model(self, hydrate)].  Of the validation the
    response models run on their fields, that of the configuration
    mapping is modelled; the rest (lengths, enumeration members) holds for
    rows built from validated requests and is left out. *)
Definition to_model (self : t) (hydrate : bool) : run EventSourceResponse.t :=
  u <~ resolve_user self ;;
  let body :=
    EventSourceResponseBody.mk (created self) (updated self) u
      (flavor self) (plugin_type self) (plugin_subtype self) in
  metadata <~
    (if hydrate then
       w <~ resolve_workspace self ;;
       _ <~ tick ConfigurationDecode ;;
       c <~ lift (decode_configuration (configuration self)) ;;
       c' <~ lift (Pydantic.validate_dict c) ;;
       ret (Some (EventSourceResponseMetadata.mk w (description self) c'))
     else ret None) ;;
  ret (EventSourceResponse.mk (id self) (name self) (Some body) metadata).

(** The user relationship holds what its annotation says, a user schema
    or [None]. *)
Definition user_typed (self : t) : bool :=
  match user self with
  | Empty | Loaded _ => true
  | Assigned _ => false
  end.

(** Both relationships hold what their annotations say: the row was
    loaded with its workspace. *)
Definition attached (self : t) : bool :=
  match workspace self with
  | Loaded _ => user_typed self
  | _ => false
  end.

Definition set_configuration (self : t) (blob : bytes) : t :=
  mk (id self) (created self) (updated self) (name self)
     (workspace_id self) (workspace self) (user_id self) (user self)
     (triggers self) (flavor self) (plugin_type self) (plugin_subtype self)
     (description self) blob.

Definition set_updated (self : t) (now : datetime) : t :=
  mk (id self) (created self) now (name self)
     (workspace_id self) (workspace self) (user_id self) (user self)
     (triggers self) (flavor self) (plugin_type self) (plugin_subtype self)
     (description self) (configuration self).

(** [setattr(self, field, value)] on the attributes an update can name
    with a value of the attribute's type; a relationship attribute takes
    any value. *)
Definition setattr (self : t) (field : string) (v : value) : t :=
  let '(mk i c u n wi w ui us tr f pt ps d cfg) := self in
  if String.eqb field "user" then
    mk i c u n wi w ui (Assigned v) tr f pt ps d cfg
  else if String.eqb field "workspace" then
    mk i c u n wi (Assigned v) ui us tr f pt ps d cfg
  else
    match v with
    | Str s =>
        if String.eqb field "name" then mk i c u s wi w ui us tr f pt ps d cfg
        else if String.eqb field "description"
        then mk i c u n wi w ui us tr f pt ps s cfg
        else if String.eqb field "flavor"
        then mk i c u n wi w ui us tr s pt ps d cfg
        else if String.eqb field "plugin_type"
        then mk i c u n wi w ui us tr f s ps d cfg
        else if String.eqb field "plugin_subtype"
        then mk i c u n wi w ui us tr f pt s d cfg
        else self
    | Obj (UUIDObj x) =>
        if String.eqb field "id" then mk x c u n wi w ui us tr f pt ps d cfg
        else if String.eqb field "workspace_id"
        then mk i c u n x w ui us tr f pt ps d cfg
        else if String.eqb field "user_id"
        then mk i c u n wi w (Some x) us tr f pt ps d cfg
        else self
    | _ => self
    end.

(** The loop of [update] over the items of
    [update.dict(exclude_unset=True)].  The row is changed in place, so
    what was written before an exception stays written. *)
Fixpoint update_loop (items : list (string * value))
         (update : EventSourceUpdate.t) (self : t) : t * result unit :=
  match items with
  | [] => (self, Ok tt)
  | (field, value) :: items' =>
      if String.eqb field "configuration" then
        match encode_configuration None
                (EventSourceUpdate.configuration_attr update) with
        | Ok blob => update_loop items' update (set_configuration self blob)
        | Raise e => (self, Raise e)
        end
      else if existsb (String.eqb field)
                ["flavor"; "plugin_type"; "plugin_subtype"; "rotate_secret"]%string
      then update_loop items' update self
      else update_loop items' update (setattr self field value)
  end.

(** [EventSourceSchema.update(self, update)].  [now] is the reading of
    [datetime.utcnow()] the call takes.  The first component is the row
    object after the call, the second tells whether the call returned
    (it returns [self]) or raised. *)
Definition update (self : t) (update : EventSourceUpdate.t) (now : datetime)
  : t * result unit :=
  match update_loop (EventSourceUpdate.dict_exclude_unset update) update self
  with
  | (self', Ok _) => (set_updated self' now, Ok tt)
  | (self', Raise e) => (self', Raise e)
  end.

End EventSourceSchema.

(** ** Hydration: the store handle and the accessors of the response *)

Module Hydration.
Import Py Effects.

(** Modelled from the spec: the store handle of section 6,
    [get_event_source(id) -> Response].  The store is the table of rows;
    the lookup of an absent id fails, a present row is projected in
    hydrated mode. *)
Definition zen_store := list EventSourceSchema.t.

Definition get_event_source (store : zen_store) (id : UUID)
  : run EventSourceResponse.t :=
  _ <~ tick (StoreFetch id) ;;
  match find (fun r => str_eqb (EventSourceSchema.id r) id) store with
  | Some row => EventSourceSchema.to_model row true
  | None => raise KeyError
  end.

(** [EventSourceResponse.get_hydrated_version(self)]:
    [Client().zen_store.get_event_source(self.id)]. *)
Definition get_hydrated_version (store : zen_store)
           (self : EventSourceResponse.t) : run EventSourceResponse.t :=
  get_event_source store (EventSourceResponse.id self).

(** Modelled from the spec: [get_metadata] of the response base class
    (sections 4.2 and 4.4): the metadata of a hydrated response is
    returned as it is; on an unhydrated one it is fetched through
    [get_hydrated_version] and kept on the object.  The result carries
    the response object after the call. *)
Definition get_metadata (store : zen_store) (self : EventSourceResponse.t)
  : run (EventSourceResponse.t * EventSourceResponseMetadata.t) :=
  match EventSourceResponse.metadata self with
  | Some m => ret (self, m)
  | None =>
      hydrated <~ get_hydrated_version store self ;;
      match EventSourceResponse.metadata hydrated with
      | Some m => ret (EventSourceResponse.set_metadata self (Some m), m)
      | None => raise AttributeError
      end
  end.

(** The [description] property: [self.get_metadata().description]. *)
Definition description (store : zen_store) (self : EventSourceResponse.t)
  : run (EventSourceResponse.t * str) :=
  r <~ get_metadata store self ;;
  ret (fst r, EventSourceResponseMetadata.description (snd r)).

(** The [configuration] property. *)
Definition configuration (store : zen_store) (self : EventSourceResponse.t)
  : run (EventSourceResponse.t * list (str * value)) :=
  r <~ get_metadata store self ;;
  ret (fst r, EventSourceResponseMetadata.configuration (snd r)).

End Hydration.

(** ** Sample data *)

Module Samples.
Import Py Effects.

Definition workspace_1 : WorkspaceSchema.t :=
  WorkspaceSchema.mk (lit "workspace-1") (lit "default").
Definition workspace_2 : WorkspaceSchema.t :=
  WorkspaceSchema.mk (lit "workspace-2") (lit "other").
Definition user_1 : UserSchema.t :=
  UserSchema.mk (lit "user-1") (lit "alice").

(** Scenario A: [{"threshold": 5, "labels": ["a", "b"]}]. *)
Definition configuration_a : list (str * value) :=
  [(lit "threshold", Int 5);
   (lit "labels", List_ [Str (lit "a"); Str (lit "b")])].

Definition request_a : EventSourceRequest.t :=
  {| EventSourceRequest.user := Some (lit "user-1");
     EventSourceRequest.workspace := lit "workspace-1";
     EventSourceRequest.name := lit "hooks";
     EventSourceRequest.flavor := lit "github";
     EventSourceRequest.plugin_type := lit "event_source";
     EventSourceRequest.plugin_subtype := lit "webhook";
     EventSourceRequest.description := lit "x";
     EventSourceRequest.configuration := configuration_a |}.

(** A row as the session holds it after loading: relationships set. *)
Definition row_with (blob : bytes) : EventSourceSchema.t :=
  {| EventSourceSchema.id := lit "source-1";
     EventSourceSchema.created := 100;
     EventSourceSchema.updated := 100;
     EventSourceSchema.name := lit "hooks";
     EventSourceSchema.workspace_id := lit "workspace-1";
     EventSourceSchema.workspace := EventSourceSchema.Loaded workspace_1;
     EventSourceSchema.user_id := Some (lit "user-1");
     EventSourceSchema.user := EventSourceSchema.Loaded user_1;
     EventSourceSchema.triggers := [];
     EventSourceSchema.flavor := lit "github";
     EventSourceSchema.plugin_type := lit "event_source";
     EventSourceSchema.plugin_subtype := lit "webhook";
     EventSourceSchema.description := lit "x";
     EventSourceSchema.configuration := blob |}.

(** The blob [from_request] writes for Scenario A. *)
Definition blob_a : bytes :=
  lit "eyJ0aHJlc2hvbGQiOiA1LCAibGFiZWxzIjogWyJhIiwgImIiXX0=".

Definition row_a : EventSourceSchema.t := row_with blob_a.

(** The row [from_request] returns for [request_a], before any session
    has seen it: the foreign keys are set, the relationships are not. *)
Definition row_fresh : EventSourceSchema.t :=
  {| EventSourceSchema.id := lit "source-1";
     EventSourceSchema.created := 100;
     EventSourceSchema.updated := 100;
     EventSourceSchema.name := lit "hooks";
     EventSourceSchema.workspace_id := lit "workspace-1";
     EventSourceSchema.workspace := EventSourceSchema.Empty;
     EventSourceSchema.user_id := Some (lit "user-1");
     EventSourceSchema.user := EventSourceSchema.Empty;
     EventSourceSchema.triggers := [];
     EventSourceSchema.flavor := lit "github";
     EventSourceSchema.plugin_type := lit "event_source";
     EventSourceSchema.plugin_subtype := lit "webhook";
     EventSourceSchema.description := lit "x";
     EventSourceSchema.configuration := blob_a |}.

(** The blob of the empty configuration, [b64encode(b"{}")], and two
    damaged copies of it: one cut short, one with a stray character. *)
Definition blob_empty : bytes := lit "e30=".

(** An update that sets only the description (Scenario B). *)
Definition update_description : EventSourceUpdate.t :=
  {| EventSourceUpdate.user := None;
     EventSourceUpdate.workspace := None;
     EventSourceUpdate.name := None;
     EventSourceUpdate.flavor := None;
     EventSourceUpdate.plugin_type := None;
     EventSourceUpdate.plugin_subtype := None;
     EventSourceUpdate.description := Some (lit "y");
     EventSourceUpdate.configuration := None;
     EventSourceUpdate.rotate_secret := None |}.


(** An update that sets only [rotate_secret]. *)
Definition update_rotate : EventSourceUpdate.t :=
  {| EventSourceUpdate.user := None;
     EventSourceUpdate.workspace := None;
     EventSourceUpdate.name := None;
     EventSourceUpdate.flavor := None;
     EventSourceUpdate.plugin_type := None;
     EventSourceUpdate.plugin_subtype := None;
     EventSourceUpdate.description := None;
     EventSourceUpdate.configuration := None;
     EventSourceUpdate.rotate_secret := Some (Some true) |}.

(** A configuration with a value only the pydantic encoder can write. *)
Definition configuration_uuid : list (str * value) :=
  [(lit "source_id", Obj (UUIDObj (lit "6fa459ea-ee8a-3ca4-894e-db77e160355e")))].

Definition request_uuid : EventSourceRequest.t :=
  {| EventSourceRequest.user := Some (lit "user-1");
     EventSourceRequest.workspace := lit "workspace-1";
     EventSourceRequest.name := lit "hooks";
     EventSourceRequest.flavor := lit "github";
     EventSourceRequest.plugin_type := lit "event_source";
     EventSourceRequest.plugin_subtype := lit "webhook";
     EventSourceRequest.description := lit "x";
     EventSourceRequest.configuration := configuration_uuid |}.

Definition update_uuid : EventSourceUpdate.t :=
  {| EventSourceUpdate.user := None;
     EventSourceUpdate.workspace := None;
     EventSourceUpdate.name := Some (lit "renamed");
     EventSourceUpdate.flavor := None;
     EventSourceUpdate.plugin_type := None;
     EventSourceUpdate.plugin_subtype := None;
     EventSourceUpdate.description := None;
     EventSourceUpdate.configuration := Some configuration_uuid;
     EventSourceUpdate.rotate_secret := None |}.

(** The store holding [row_a], and the two responses of that row. *)
Definition store_a : Hydration.zen_store := [row_a].

Definition body_a : EventSourceResponseBody.t :=
  EventSourceResponseBody.mk 100 100 (Some (user_to_model user_1))
    (lit "github") (lit "event_source") (lit "webhook").

Definition metadata_a : EventSourceResponseMetadata.t :=
  EventSourceResponseMetadata.mk (workspace_to_model workspace_1) (lit "x")
    configuration_a.

Definition response_unhydrated : EventSourceResponse.t :=
  EventSourceResponse.mk (lit "source-1") (lit "hooks") (Some body_a) None.

Definition response_hydrated : EventSourceResponse.t :=
  EventSourceResponse.mk (lit "source-1") (lit "hooks") (Some body_a)
    (Some metadata_a).

End Samples.

(* ================================================================== *)
(** * Part II: vocabulary of the statements and proofs                 *)
(* ================================================================== *)

(** ** Checking a property of small numbers by enumeration *)

Module Enumeration.

Definition upto (n : nat) : list Z := map Z.of_nat (seq 0 n).

End Enumeration.

(** ** Octets, characters and delimiters *)

Module Text.
Import Py Json.

Definition octet (z : Z) : Prop := 0 <= z < 256.

Definition ascii7 (c : Z) : Prop := 0 <= c < 128.

Definition digit_char (c : Z) : Prop := 48 <= c <= 57.

(** What may follow a value inside a document: nothing, a comma, or a
    closing bracket or brace. *)
Definition delimited (rest : str) : Prop :=
  match rest with
  | [] => True
  | c :: _ => c = 44 \/ c = 93 \/ c = 125
  end.

Definition no_digit_ahead (rest : str) : Prop :=
  match rest with [] => True | c :: _ => is_digit c = false end.

(** The head of a serialized value is neither white space nor a closing
    bracket or brace. *)
Definition head_ok (txt : str) : Prop :=
  exists c t, txt = c :: t /\ is_ws c = false /\ c <> 93 /\ c <> 125.

(** A number starts with a digit, or with a minus sign and a digit. *)
Definition number_head (s : str) : Prop :=
  exists c cs, s = c :: cs /\
               (digit_char c \/
                (c = 45 /\ exists d ds, cs = d :: ds /\ digit_char d)).

End Text.

(** ** The checks run by enumeration *)

Module Checks.
Import Py Base64 Json.

Definition alphabet_ok (k : Z) : bool :=
  negb (b2a k =? BASE64_PAD) && (a2b (b2a k) =? k).

Definition hexdigit_ok (d : Z) : bool :=
  match hexval (hexdigit d) with
  | Some x => (x =? d) && (0 <=? hexdigit d) && (hexdigit d <? 128)
  | None => false
  end.

End Checks.

(** ** Reading serialized text back *)

Module Readback.
Import Py Json Text.

(** [txt] is ASCII and is read back as [v], whatever delimiter follows. *)
Definition reads_back (txt : str) (v : value) : Prop :=
  Forall ascii7 txt /\ head_ok txt /\
  forall fuel rest,
    (List.length txt <= fuel)%nat -> delimited rest ->
    scan_once fuel (txt ++ rest) = Ok (v, rest).

Definition item_reads_back (chunk : str) (kv : str * value) : Prop :=
  exists c, chunk = key_chunk (fst kv) c /\ text (fst kv) = true /\
            reads_back c (snd kv).

(** The dict [JSONObject] has built once it has read [items] after
    [pairs]. *)
Definition build (pairs items : list (str * value)) : list (str * value) :=
  fold_left (fun d kv => dict_set d (fst kv) (snd kv)) items pairs.


End Readback.

(** ** The row an update leaves behind *)

Module Patch.
Import Py Effects EventSourceSchema.

Definition or_else {A} (x : option A) (d : A) : A :=
  match x with Some a => a | None => d end.

Definition assigned_or {A} (x : option UUID) (d : relationship A)
  : relationship A :=
  match x with
  | Some u => Assigned (EventSourceUpdate.uuid_value u)
  | None => d
  end.

(** The row after the fields handled by [setattr] have been written. *)
Definition patched (self : t) (u : EventSourceUpdate.t) : t :=
  {| id := id self;
     created := created self;
     updated := updated self;
     name := or_else (EventSourceUpdate.name u) (name self);
     workspace_id := workspace_id self;
     workspace := assigned_or (EventSourceUpdate.workspace u) (workspace self);
     user_id := user_id self;
     user := assigned_or (EventSourceUpdate.user u) (user self);
     triggers := triggers self;
     flavor := flavor self;
     plugin_type := plugin_type self;
     plugin_subtype := plugin_subtype self;
     description := or_else (EventSourceUpdate.description u) (description self);
     configuration := configuration self |}.

(** What [to_model] puts in the body's [user]: the converted user model
    of a loaded relationship. *)
Definition body_user (self : t) : option UserResponse.t :=
  match user self with
  | Loaded u => Some (user_to_model u)
  | _ => None
  end.

(** The body [to_model] builds from the row. *)
Definition body_of (self : t) : EventSourceResponseBody.t :=
  EventSourceResponseBody.mk (created self) (updated self) (body_user self)
    (flavor self) (plugin_type self) (plugin_subtype self).

(** The events of the user resolution. *)
Definition user_events (self : t) : list event :=
  match user self with
  | Loaded _ => [UserToModel]
  | _ => []
  end.


(** The events of a projection that ran to its end. *)
Definition projection_events (self : t) (hydrate : bool) : list event :=
  user_events self
  ++ (if hydrate then [WorkspaceToModel; ConfigurationDecode] else []).

End Patch.

(** ** What survives the codec, what the decoder skips, updates in a row *)

Module Normal.
Import Py Json Effects.



(** The octets the Base64 scanner looks at: the alphabet and the pad. *)
Definition significant (c : Z) : bool :=
  (Base64.a2b c <? 64) || (c =? Base64.BASE64_PAD).

Definition later {A} (x y : option A) : option A :=
  match y with Some _ => y | None => x end.

(** The update that sets what [u1] or [u2] sets, with the value of [u2]
    where both do. *)
Definition then_ (u1 u2 : EventSourceUpdate.t) : EventSourceUpdate.t :=
  EventSourceUpdate.mk
    (later (EventSourceUpdate.user u1) (EventSourceUpdate.user u2))
    (later (EventSourceUpdate.workspace u1) (EventSourceUpdate.workspace u2))
    (later (EventSourceUpdate.name u1) (EventSourceUpdate.name u2))
    (later (EventSourceUpdate.flavor u1) (EventSourceUpdate.flavor u2))
    (later (EventSourceUpdate.plugin_type u1)
           (EventSourceUpdate.plugin_type u2))
    (later (EventSourceUpdate.plugin_subtype u1)
           (EventSourceUpdate.plugin_subtype u2))
    (later (EventSourceUpdate.description u1)
           (EventSourceUpdate.description u2))
    (later (EventSourceUpdate.configuration u1)
           (EventSourceUpdate.configuration u2))
    (later (EventSourceUpdate.rotate_secret u1)
           (EventSourceUpdate.rotate_secret u2)).


(** Base64 text as [b64encode] writes it: alphabet and pad characters
    only, in groups of four. *)
Definition base64_text (blob : bytes) : bool :=
  forallb significant blob && (List.length blob mod 4 =? 0)%nat.

End Normal.

Module Scenarios.
Import Py Effects Samples.

(** An update of the name, the description and the configuration. *)
Definition update_retune : EventSourceUpdate.t :=
  {| EventSourceUpdate.user := None;
     EventSourceUpdate.workspace := None;
     EventSourceUpdate.name := Some (lit "renamed");
     EventSourceUpdate.flavor := None;
     EventSourceUpdate.plugin_type := None;
     EventSourceUpdate.plugin_subtype := None;
     EventSourceUpdate.description := Some (lit "y");
     EventSourceUpdate.configuration := Some [(lit "threshold", Int 6)];
     EventSourceUpdate.rotate_secret := None |}.

(** An update of the name alone. *)
Definition update_rename : EventSourceUpdate.t :=
  {| EventSourceUpdate.user := None;
     EventSourceUpdate.workspace := None;
     EventSourceUpdate.name := Some (lit "again");
     EventSourceUpdate.flavor := None;
     EventSourceUpdate.plugin_type := None;
     EventSourceUpdate.plugin_subtype := None;
     EventSourceUpdate.description := None;
     EventSourceUpdate.configuration := None;
     EventSourceUpdate.rotate_secret := None |}.

(** The blob of Scenario A broken into lines of sixteen characters, as a
    MIME encoder would write it. *)
Definition blob_a_wrapped : bytes :=
  lit "eyJ0aHJlc2hvbGQi" ++ [13; 10] ++
  lit "OiA1LCAibGFiZWxz" ++ [13; 10] ++
  lit "IjogWyJhIiwgImIi" ++ [13; 10] ++
  lit "XX0=" ++ [13; 10].




End Scenarios.

(* ================================================================== *)
(** * Part III: facts about the library models                         *)
(* ================================================================== *)

(** ** Enumeration *)

Section EnumerationFacts.
Import Enumeration.

Lemma upto_In (n : nat) (z : Z) : 0 <= z < Z.of_nat n -> In z (upto n).
Proof.
  intros Hz. unfold upto. apply in_map_iff.
  exists (Z.to_nat z). split; [lia|]. apply in_seq. lia.
Qed.

Lemma forallb_upto (n : nat) (P : Z -> bool) :
  forallb P (upto n) = true ->
  forall z, 0 <= z < Z.of_nat n -> P z = true.
Proof.
  intros H z Hz. rewrite forallb_forall in H. apply H, upto_In, Hz.
Qed.

End EnumerationFacts.

Ltac split_andb :=
repeat match goal with
       | H : _ && _ = true |- _ => apply andb_prop in H; destruct H
       end.

(** ** Base64 *)

Module Base64Facts.
Import Py Base64 Enumeration Text Checks.

Lemma land_shiftl_low (h l k : Z) :
  0 <= k -> 0 <= l < 2 ^ k -> Z.land (Z.shiftl h k) l = 0.
Proof.
  intros Hk Hl. apply Z.bits_inj'. intros i Hi.
  rewrite Z.land_spec, Z.bits_0.
  destruct (Z.ltb_spec i k).
  - rewrite Z.shiftl_spec_low by assumption. reflexivity.
  - destruct (Z.eq_dec l 0) as [->|Hne].
    + rewrite Z.bits_0. apply andb_false_r.
    + rewrite (Z.bits_above_log2 l i); [apply andb_false_r | lia |].
      apply Z.log2_lt_pow2; [lia|].
      apply Z.lt_le_trans with (2 ^ k); [lia|].
      apply Z.pow_le_mono_r; lia.
Qed.

(** Putting [l] below a shifted [h] is an addition. *)
Lemma lor_shiftl_low (h l k : Z) :
  0 <= k -> 0 <= l < 2 ^ k -> Z.lor (Z.shiftl h k) l = h * 2 ^ k + l.
Proof.
  intros Hk Hl.
  rewrite <- Z.lxor_lor by now apply land_shiftl_low.
  rewrite <- Z.add_nocarry_lxor by now apply land_shiftl_low.
  now rewrite Z.shiftl_mul_pow2.
Qed.

Lemma land_low (a k : Z) : 0 <= k -> Z.land a (2 ^ k - 1) = a mod 2 ^ k.
Proof.
  intros Hk. rewrite <- Z.land_ones by assumption.
  now rewrite Z.ones_equiv, <- Z.sub_1_r.
Qed.

Lemma shr2 (a : Z) : Z.shiftr a 2 = a / 4.
Proof. now rewrite Z.shiftr_div_pow2. Qed.
Lemma shr4 (a : Z) : Z.shiftr a 4 = a / 16.
Proof. now rewrite Z.shiftr_div_pow2. Qed.
Lemma shr6 (a : Z) : Z.shiftr a 6 = a / 64.
Proof. now rewrite Z.shiftr_div_pow2. Qed.
Lemma shl2 (a : Z) : Z.shiftl a 2 = a * 4.
Proof. now rewrite Z.shiftl_mul_pow2. Qed.
Lemma shl4 (a : Z) : Z.shiftl a 4 = a * 16.
Proof. now rewrite Z.shiftl_mul_pow2. Qed.
Lemma land3 (a : Z) : Z.land a 3 = a mod 4.
Proof. exact (land_low a 2 ltac:(lia)). Qed.
Lemma land15 (a : Z) : Z.land a 15 = a mod 16.
Proof. exact (land_low a 4 ltac:(lia)). Qed.
Lemma land63 (a : Z) : Z.land a 63 = a mod 64.
Proof. exact (land_low a 6 ltac:(lia)). Qed.
Lemma lor_shl2 (h l : Z) : 0 <= l < 4 -> Z.lor (Z.shiftl h 2) l = h * 4 + l.
Proof. intros H. now rewrite lor_shiftl_low. Qed.
Lemma lor_shl4 (h l : Z) : 0 <= l < 16 -> Z.lor (Z.shiftl h 4) l = h * 16 + l.
Proof. intros H. now rewrite lor_shiftl_low. Qed.
Lemma lor_shl6 (h l : Z) : 0 <= l < 64 -> Z.lor (Z.shiftl h 6) l = h * 64 + l.
Proof. intros H. now rewrite lor_shiftl_low. Qed.

Ltac divmod := Z.div_mod_to_equations; lia.

(** The four sextets of three octets, in arithmetic. *)
Lemma sextet2 (a b : Z) :
  octet b ->
  Z.lor (Z.shiftl (Z.land a 3) 4) (Z.shiftr b 4) = a mod 4 * 16 + b / 16.
Proof.
  unfold octet. intros Hb. rewrite land3, shr4, lor_shl4 by divmod. reflexivity.
Qed.

Lemma sextet3 (b c : Z) :
  octet c ->
  Z.lor (Z.shiftl (Z.land b 15) 2) (Z.shiftr c 6) = b mod 16 * 4 + c / 64.
Proof.
  unfold octet. intros Hc. rewrite land15, shr6, lor_shl2 by divmod. reflexivity.
Qed.

Lemma alphabet_inverse (k : Z) :
  0 <= k < 64 ->
  (b2a k =? BASE64_PAD) = false /\ a2b (b2a k) = k.
Proof.
  intros Hk.
  assert (H : alphabet_ok k = true).
  { apply (forallb_upto 64 alphabet_ok); [vm_compute; reflexivity | exact Hk]. }
  unfold alphabet_ok in H. split_andb. split.
  - now apply negb_true_iff.
  - now apply Z.eqb_eq.
Qed.

(** One alphabet character moves the scanner one position in its quad. *)
Lemma a2b_loop_data (k : Z) (s : bytes) (q l p : Z) (out : bytes) :
  0 <= k < 64 ->
  a2b_loop (b2a k :: s) q l p out =
    if q =? 0 then a2b_loop s 1 k 0 out
    else if q =? 1 then
      a2b_loop s 2 (Z.land k 15) 0
               (Z.lor (Z.shiftl l 2) (Z.shiftr k 4) :: out)
    else if q =? 2 then
      a2b_loop s 3 (Z.land k 3) 0
               (Z.lor (Z.shiftl l 4) (Z.shiftr k 2) :: out)
    else a2b_loop s 0 0 0 (Z.lor (Z.shiftl l 6) k :: out).
Proof.
  intros Hk. destruct (alphabet_inverse k Hk) as [Hpad Hinv].
  cbn [a2b_loop]. rewrite Hpad, Hinv.
  replace (64 <=? k) with false by (symmetry; apply Z.leb_gt; lia).
  reflexivity.
Qed.

(** The scanner reassembles the first octet from the first two sextets. *)
Lemma octet1 (a b : Z) :
  octet a -> octet b ->
  Z.lor (Z.shiftl (a / 4) 2) (Z.shiftr (a mod 4 * 16 + b / 16) 4) = a.
Proof.
  unfold octet. intros Ha Hb. rewrite shr4, lor_shl2 by divmod. divmod.
Qed.

(** The second octet, from what the second sextet left and the third. *)
Lemma octet2 (a b c : Z) :
  octet b -> octet c ->
  Z.lor (Z.shiftl (Z.land (a mod 4 * 16 + b / 16) 15) 4)
        (Z.shiftr (b mod 16 * 4 + c / 64) 2) = b.
Proof.
  unfold octet. intros Hb Hc. rewrite land15, shr2, lor_shl4 by divmod. divmod.
Qed.

(** The third octet, from what the third sextet left and the fourth. *)
Lemma octet3 (b c : Z) :
  octet c ->
  Z.lor (Z.shiftl (Z.land (b mod 16 * 4 + c / 64) 3) 6) (c mod 64) = c.
Proof.
  unfold octet. intros Hc. rewrite land3, lor_shl6 by divmod. divmod.
Qed.

(** A full group of three octets is read back by four scanner steps. *)
Lemma a2b_loop_group (a b c : Z) (s : bytes) (out : bytes) :
  octet a -> octet b -> octet c ->
  a2b_loop (b64encode (a :: b :: c :: s)) 0 0 0 out =
  a2b_loop (b64encode s) 0 0 0 (c :: b :: a :: out).
Proof.
  intros Ha Hb Hc. cbn [b64encode].
  rewrite shr2, land63, sextet2, sextet3 by assumption.
  unfold octet in *.
  rewrite !a2b_loop_data by divmod. cbn [Z.eqb Pos.eqb].
  rewrite octet1, octet2, octet3 by assumption.
  reflexivity.
Qed.

Lemma a2b_loop_pad2 (s : bytes) (l : Z) (out : bytes) :
  a2b_loop (BASE64_PAD :: BASE64_PAD :: s) 2 l 0 out = Ok (rev out).
Proof. reflexivity. Qed.

Lemma a2b_loop_pad1 (s : bytes) (l : Z) (out : bytes) :
  a2b_loop (BASE64_PAD :: s) 3 l 0 out = Ok (rev out).
Proof. reflexivity. Qed.

Lemma list_ind3 {A} (P : list A -> Prop) :
  P [] -> (forall a, P [a]) -> (forall a b, P [a; b]) ->
  (forall a b c l, P l -> P (a :: b :: c :: l)) ->
  forall l, P l.
Proof.
  intros H0 H1 H2 H3.
  fix IH 1. intros [|a [|b [|c l]]].
  - exact H0.
  - exact (H1 a).
  - exact (H2 a b).
  - exact (H3 a b c l (IH l)).
Qed.

(** [b64decode] inverts [b64encode] on every sequence of octets. *)
Lemma a2b_loop_b64encode (s : bytes) :
  Forall octet s ->
  forall out, a2b_loop (b64encode s) 0 0 0 out = Ok (rev out ++ s).
Proof.
  induction s as [|a|a b|a b c s IH] using list_ind3; intros Hs out.
  - cbn. now rewrite app_nil_r.
  - inversion Hs as [|? ? Ha _]; subst.
    assert (H0 : octet 0) by (unfold octet; lia).
    cbn [b64encode].
    replace (Z.shiftl (Z.land a 3) 4)
      with (Z.lor (Z.shiftl (Z.land a 3) 4) (Z.shiftr 0 4))
      by (change (Z.shiftr 0 4) with 0; apply Z.lor_0_r).
    rewrite shr2, sextet2 by assumption. unfold octet in *.
    rewrite !a2b_loop_data by divmod. cbn [Z.eqb Pos.eqb].
    rewrite a2b_loop_pad2, octet1 by assumption. reflexivity.
  - inversion Hs as [|? ? Ha Hs']; subst.
    inversion Hs' as [|? ? Hb _]; subst.
    assert (H0 : octet 0) by (unfold octet; lia).
    cbn [b64encode].
    replace (Z.shiftl (Z.land b 15) 2)
      with (Z.lor (Z.shiftl (Z.land b 15) 2) (Z.shiftr 0 6))
      by (change (Z.shiftr 0 6) with 0; apply Z.lor_0_r).
    rewrite shr2, sextet2, sextet3 by assumption. unfold octet in *.
    rewrite !a2b_loop_data by divmod. cbn [Z.eqb Pos.eqb].
    rewrite a2b_loop_pad1, octet1, octet2 by assumption.
    cbn [rev]. rewrite <- !app_assoc. reflexivity.
  - inversion Hs as [|? ? Ha Hs1]; subst.
    inversion Hs1 as [|? ? Hb Hs2]; subst.
    inversion Hs2 as [|? ? Hc Hs3]; subst.
    rewrite a2b_loop_group by assumption.
    rewrite IH by assumption. cbn [rev]. now rewrite <- !app_assoc.
Qed.

Lemma b64decode_b64encode (s : bytes) :
  Forall octet s -> b64decode (b64encode s) = Ok s.
Proof.
  intros Hs. unfold b64decode. now rewrite a2b_loop_b64encode.
Qed.

End Base64Facts.

(** ** JSON escapes: hexadecimal digits and surrogate pairs *)

Module JsonEscapeFacts.
Import Py Json Enumeration Text Checks Base64Facts.

Lemma hexdigit_checked (d : Z) :
  0 <= d < 16 -> hexval (hexdigit d) = Some d /\ ascii7 (hexdigit d).
Proof.
  intros Hd.
  assert (H : hexdigit_ok d = true).
  { apply (forallb_upto 16 hexdigit_ok); [vm_compute; reflexivity | exact Hd]. }
  unfold hexdigit_ok in H. destruct (hexval (hexdigit d)) as [x|]; [|discriminate].
  split_andb.
  repeat match goal with
         | H : (_ <=? _) = true |- _ => apply Z.leb_le in H
         | H : (_ <? _) = true |- _ => apply Z.ltb_lt in H
         | H : (_ =? _) = true |- _ => apply Z.eqb_eq in H
         end.
  subst x. split; [reflexivity | unfold ascii7; lia].
Qed.

Lemma nibble (n k : Z) :
  0 <= k -> Z.land (Z.shiftr n k) 15 = (n / 2 ^ k) mod 16.
Proof. intros Hk. now rewrite Z.shiftr_div_pow2, land15. Qed.

(** The four hexadecimal digits of a number below 65536 spell it. *)
Lemma nibbles (n : Z) :
  0 <= n < 65536 ->
  Z.lor (Z.shiftl
           (Z.lor (Z.shiftl
                     (Z.lor (Z.shiftl (n / 4096 mod 16) 4) (n / 256 mod 16)) 4)
                  (n / 16 mod 16)) 4)
        (n mod 16) = n.
Proof.
  intros Hn. rewrite !lor_shl4 by divmod. divmod.
Qed.

Lemma u_escape_shape (n : Z) :
  0 <= n < 65536 ->
  exists a b c d,
    u_escape n = [92; 117; a; b; c; d] /\ hex4 a b c d = Some n /\
    Forall ascii7 [a; b; c; d].
Proof.
  intros Hn. unfold u_escape.
  rewrite (nibble n 12), (nibble n 8), (nibble n 4) by lia.
  rewrite land15. change (2 ^ 12) with 4096. change (2 ^ 8) with 256.
  change (2 ^ 4) with 16.
  destruct (hexdigit_checked (n / 4096 mod 16) ltac:(divmod)) as [H1 A1].
  destruct (hexdigit_checked (n / 256 mod 16) ltac:(divmod)) as [H2 A2].
  destruct (hexdigit_checked (n / 16 mod 16) ltac:(divmod)) as [H3 A3].
  destruct (hexdigit_checked (n mod 16) ltac:(divmod)) as [H4 A4].
  eexists _, _, _, _. split; [reflexivity|]. split.
  - unfold hex4. rewrite H1, H2, H3, H4. now rewrite nibbles.
  - repeat (constructor; [assumption|]). constructor.
Qed.

(** The surrogate pair of a supplementary code point, and its rejoining. *)
Lemma surrogate_pair (n : Z) :
  0 <= n < 0x100000 ->
  let hi := Z.lor 0xD800 (Z.land (Z.shiftr n 10) 0x3FF) in
  let lo := Z.lor 0xDC00 (Z.land n 0x3FF) in
  is_high_surrogate hi = true /\ is_low_surrogate lo = true /\
  join_surrogates hi lo = n + 0x10000.
Proof.
  intros Hn. cbv zeta.
  assert (Hhi : Z.lor 0xD800 (Z.land (Z.shiftr n 10) 0x3FF)
                = 0xD800 + n / 1024).
  { change 0x3FF with (2 ^ 10 - 1). rewrite land_low by lia.
    rewrite Z.shiftr_div_pow2 by lia. change (2 ^ 10) with 1024.
    change 0xD800 with (Z.shiftl 54 10) at 1.
    rewrite lor_shiftl_low by (try lia; change (2 ^ 10) with 1024; divmod).
    change (2 ^ 10) with 1024. divmod. }
  assert (Hlo : Z.lor 0xDC00 (Z.land n 0x3FF) = 0xDC00 + n mod 1024).
  { change 0x3FF with (2 ^ 10 - 1). rewrite land_low by lia.
    change (2 ^ 10) with 1024.
    change 0xDC00 with (Z.shiftl 55 10) at 1.
    rewrite lor_shiftl_low by (try lia; change (2 ^ 10) with 1024; divmod).
    change (2 ^ 10) with 1024. lia. }
  rewrite Hhi, Hlo. unfold is_high_surrogate, is_low_surrogate, join_surrogates.
  split; [|split].
  - apply andb_true_intro. split; apply Z.leb_le; divmod.
  - apply andb_true_intro. split; apply Z.leb_le; divmod.
  - replace (0xD800 + n / 1024 - 0xD800) with (n / 1024) by lia.
    replace (0xDC00 + n mod 1024 - 0xDC00) with (n mod 1024) by lia.
    rewrite lor_shiftl_low by (try lia; change (2 ^ 10) with 1024; divmod).
    change (2 ^ 10) with 1024. divmod.
Qed.

End JsonEscapeFacts.

(** ** JSON strings *)

Module JsonStringFacts.
Import Py Json Enumeration Text Checks JsonEscapeFacts.

Lemma scanstring_u (h1 h2 h3 h4 : Z) (s3 acc : str) :
  scanstring (92 :: 117 :: h1 :: h2 :: h3 :: h4 :: s3) acc =
  match hex4 h1 h2 h3 h4 with
  | None => Raise JSONDecodeError
  | Some uni =>
      if is_high_surrogate uni then
        match s3 with
        | b :: u :: k1 :: k2 :: k3 :: k4 :: s4 =>
            if (b =? 92) && (u =? 117) then
              match hex4 k1 k2 k3 k4 with
              | None => Raise JSONDecodeError
              | Some uni2 =>
                  if is_low_surrogate uni2
                  then scanstring s4 (join_surrogates uni uni2 :: acc)
                  else scanstring s3 (uni :: acc)
              end
            else scanstring s3 (uni :: acc)
        | _ => scanstring s3 (uni :: acc)
        end
      else scanstring s3 (uni :: acc)
  end.
Proof. reflexivity. Qed.

Lemma scanstring_plain (c : Z) (t acc : str) :
  32 <= c -> c <> 34 -> c <> 92 ->
  scanstring (c :: t) acc = scanstring t (c :: acc).
Proof.
  intros H1 H2 H3. cbn [scanstring].
  apply Z.eqb_neq in H2, H3. rewrite H2, H3.
  replace (c <? 32) with false by (symmetry; apply Z.ltb_ge; lia).
  reflexivity.
Qed.

Lemma scanstring_bmp (n : Z) (t acc : str) :
  0 <= n < 65536 -> is_high_surrogate n = false ->
  scanstring (u_escape n ++ t) acc = scanstring t (n :: acc).
Proof.
  intros Hn Hhi. destruct (u_escape_shape n Hn) as (a & b & c & d & -> & Hx & _).
  cbn [app]. rewrite scanstring_u, Hx, Hhi. reflexivity.
Qed.

Lemma scanstring_pair (n : Z) (t acc : str) :
  0 <= n < 0x100000 ->
  scanstring (u_escape (Z.lor 0xD800 (Z.land (Z.shiftr n 10) 0x3FF))
              ++ u_escape (Z.lor 0xDC00 (Z.land n 0x3FF)) ++ t) acc
  = scanstring t (n + 0x10000 :: acc).
Proof.
  intros Hn. pose proof (surrogate_pair n Hn) as H. cbv zeta in H.
  set (hi := Z.lor 0xD800 (Z.land (Z.shiftr n 10) 0x3FF)) in *.
  set (lo := Z.lor 0xDC00 (Z.land n 0x3FF)) in *.
  destruct H as (Hhi & Hlo & Hj).
  assert (Hhi' : 0 <= hi < 65536).
  { unfold is_high_surrogate in Hhi. apply andb_prop in Hhi. lia. }
  assert (Hlo' : 0 <= lo < 65536).
  { unfold is_low_surrogate in Hlo. apply andb_prop in Hlo. lia. }
  destruct (u_escape_shape hi Hhi') as (a & b & c & d & -> & Hx & _).
  destruct (u_escape_shape lo Hlo') as (a' & b' & c' & d' & -> & Hx' & _).
  cbn [app]. rewrite scanstring_u, Hx, Hhi.
  cbn [Z.eqb Pos.eqb andb]. rewrite Hx', Hlo, Hj. reflexivity.
Qed.

Ltac zbool :=
  repeat match goal with
         | H : _ && _ = true |- _ => apply andb_prop in H; destruct H
         | H : _ && _ = false |- _ => apply andb_false_iff in H
         | H : _ || _ = false |- _ => apply orb_false_iff in H; destruct H
         | H : negb _ = true |- _ => apply negb_true_iff in H
         | H : (_ <=? _) = true |- _ => apply Z.leb_le in H
         | H : (_ <=? _) = false |- _ => apply Z.leb_gt in H
         | H : (_ <? _) = true |- _ => apply Z.ltb_lt in H
         | H : (_ <? _) = false |- _ => apply Z.ltb_ge in H
         | H : (_ =? _) = true |- _ => apply Z.eqb_eq in H
         | H : (_ =? _) = false |- _ => apply Z.eqb_neq in H
         end.

(** The scanner reads the escape of a scalar value back as that value. *)
Lemma scanstring_escape_char (c : Z) (t acc : str) :
  scalar c = true ->
  scanstring (escape_char c ++ t) acc = scanstring t (c :: acc).
Proof.
  intros Hc. unfold scalar in Hc. unfold escape_char.
  destruct (c =? 34) eqn:E34; [zbool; subst; reflexivity|].
  destruct (c =? 92) eqn:E92; [zbool; subst; reflexivity|].
  destruct ((32 <=? c) && (c <=? 126)) eqn:Epr.
  { zbool. cbn [app]. apply scanstring_plain; lia. }
  destruct (c =? 8) eqn:E8; [zbool; subst; reflexivity|].
  destruct (c =? 12) eqn:E12; [zbool; subst; reflexivity|].
  destruct (c =? 10) eqn:E10; [zbool; subst; reflexivity|].
  destruct (c =? 13) eqn:E13; [zbool; subst; reflexivity|].
  destruct (c =? 9) eqn:E9; [zbool; subst; reflexivity|].
  destruct (c <? 65536) eqn:Ebmp.
  - apply scanstring_bmp; [zbool; lia|].
    unfold is_high_surrogate. zbool.
    apply andb_false_iff.
    destruct (Z.leb_spec 0xD800 c); [right|left; reflexivity].
    apply Z.leb_gt.
    match goal with H : _ \/ _ |- _ => destruct H; zbool; lia end.
  - cbv zeta. rewrite <- app_assoc.
    rewrite scanstring_pair by (zbool; lia).
    replace (c - 65536 + 65536) with c by lia. reflexivity.
Qed.

Lemma scanstring_escaped (s : str) (rest acc : str) :
  text s = true ->
  scanstring (flat_map escape_char s ++ 34 :: rest) acc
  = Ok (rev acc ++ s, rest).
Proof.
  revert acc. induction s as [|c s IH]; intros acc Hs.
  - cbn. now rewrite app_nil_r.
  - cbn [text forallb] in Hs. apply andb_prop in Hs. destruct Hs as [Hc Hs].
    cbn [flat_map]. rewrite <- app_assoc.
    rewrite scanstring_escape_char by assumption.
    rewrite IH by assumption. cbn [rev]. now rewrite <- app_assoc.
Qed.

Lemma u_escape_ascii (n : Z) :
  0 <= n < 65536 -> Forall ascii7 (u_escape n).
Proof.
  intros Hn. destruct (u_escape_shape n Hn) as (a & b & c & d & -> & _ & H).
  constructor; [unfold ascii7; lia|].
  constructor; [unfold ascii7; lia|]. exact H.
Qed.

Lemma escape_char_ascii (c : Z) :
  scalar c = true -> Forall ascii7 (escape_char c).
Proof.
  intros Hc. unfold scalar in Hc. unfold escape_char.
  repeat match goal with
         | |- context [if ?b then _ else _] => destruct b eqn:?
         end;
    try (repeat constructor; unfold ascii7; zbool; lia).
  - apply u_escape_ascii. zbool; lia.
  - cbv zeta.
    assert (Hn : 0 <= c - 65536 < 0x100000) by (zbool; lia).
    pose proof (surrogate_pair _ Hn) as H. cbv zeta in H.
    set (hi := Z.lor 0xD800 _) in *. set (lo := Z.lor 0xDC00 _) in *.
    destruct H as (Hhi & Hlo & _).
    unfold is_high_surrogate in Hhi. unfold is_low_surrogate in Hlo.
    apply Forall_app. split; apply u_escape_ascii; zbool; lia.
Qed.

Lemma encode_basestring_ascii_ascii (s : str) :
  text s = true -> Forall ascii7 (encode_basestring_ascii s).
Proof.
  intros Hs. unfold encode_basestring_ascii.
  constructor; [unfold ascii7; lia|]. apply Forall_app. split.
  - induction s as [|c s IH]; [constructor|].
    cbn [text forallb] in Hs. apply andb_prop in Hs. destruct Hs as [Hc Hs].
    cbn [flat_map]. apply Forall_app. split;
      [now apply escape_char_ascii | now apply IH].
  - repeat constructor; unfold ascii7; lia.
Qed.

End JsonStringFacts.

(** ** JSON integers *)

Module JsonNumberFacts.
Import Py Json Text JsonEscapeFacts JsonStringFacts.

Lemma digits_lsf_range (fuel : nat) (n : Z) :
  0 <= n -> Forall (fun d => 0 <= d < 10) (digits_lsf fuel n).
Proof.
  revert n. induction fuel as [|fuel IH]; intros n Hn; cbn [digits_lsf].
  - constructor.
  - destruct (Z.ltb_spec n 10).
    + repeat constructor; lia.
    + constructor.
      * apply Z.mod_pos_bound. lia.
      * apply IH. apply Z.div_pos; lia.
Qed.

Lemma digits_lsf_value (fuel : nat) (n : Z) :
  0 <= n < 2 ^ Z.of_nat fuel ->
  fold_right (fun d a => d + 10 * a) 0 (digits_lsf fuel n) = n.
Proof.
  revert n. induction fuel as [|fuel IH]; intros n Hn; cbn [digits_lsf].
  - cbn in *. lia.
  - destruct (Z.ltb_spec n 10).
    + cbn. lia.
    + cbn [fold_right]. rewrite IH.
      * pose proof (Z.div_mod n 10 ltac:(lia)). lia.
      * rewrite Nat2Z.inj_succ, Z.pow_succ_r in Hn by lia.
        split; [apply Z.div_pos; lia|].
        apply Z.div_lt_upper_bound; lia.
Qed.

Lemma digits_lsf_leading (fuel : nat) (n : Z) :
  0 < n < 2 ^ Z.of_nat fuel ->
  exists d ds, rev (digits_lsf fuel n) = d :: ds /\ 1 <= d <= 9.
Proof.
  revert n. induction fuel as [|fuel IH]; intros n Hn; cbn [digits_lsf].
  - cbn in *. lia.
  - destruct (Z.ltb_spec n 10).
    + exists n, []. split; [reflexivity | lia].
    + destruct (IH (n / 10)) as (d & ds & Hrev & Hd).
      * rewrite Nat2Z.inj_succ, Z.pow_succ_r in Hn by lia.
        split; [apply Z.div_str_pos; lia|].
        apply Z.div_lt_upper_bound; lia.
      * exists d, (ds ++ [n mod 10]). cbn [rev]. rewrite Hrev. now split.
Qed.

Lemma log2_fuel (n : Z) : 0 <= n -> n < 2 ^ Z.of_nat (S (Z.to_nat (Z.log2 n))).
Proof.
  intros Hn. rewrite Nat2Z.inj_succ, Z2Nat.id by apply Z.log2_nonneg.
  destruct (Z.eq_dec n 0) as [->|Hne]; [reflexivity|].
  apply Z.log2_spec. lia.
Qed.

Lemma int_of_digits_lsf (l : list Z) :
  int_of_digits (map (fun d => 48 + d) (rev l))
  = fold_right (fun d a => d + 10 * a) 0 l.
Proof.
  unfold int_of_digits. rewrite map_rev, <- fold_left_rev_right, rev_involutive.
  induction l as [|d l IH]; [reflexivity|].
  cbn [map fold_right]. rewrite IH. lia.
Qed.

Lemma int_of_digits_nat_repr (n : Z) : 0 <= n -> int_of_digits (nat_repr n) = n.
Proof.
  intros Hn. unfold nat_repr. rewrite int_of_digits_lsf.
  apply digits_lsf_value. split; [assumption | now apply log2_fuel].
Qed.

Lemma nat_repr_digits (n : Z) : 0 <= n -> Forall digit_char (nat_repr n).
Proof.
  intros Hn. unfold nat_repr. apply Forall_map, Forall_rev.
  eapply Forall_impl; [|apply digits_lsf_range; assumption].
  intros d Hd. unfold digit_char. cbv beta in *. lia.
Qed.

Lemma nat_repr_zero : nat_repr 0 = [48].
Proof. reflexivity. Qed.

Lemma nat_repr_leading (n : Z) :
  0 < n -> exists c cs, nat_repr n = c :: cs /\ 49 <= c <= 57.
Proof.
  intros Hn. unfold nat_repr.
  destruct (digits_lsf_leading (S (Z.to_nat (Z.log2 n))) n) as (d & ds & -> & Hd).
  - split; [assumption | apply log2_fuel; lia].
  - cbn [map]. eexists _, _. split; [reflexivity | lia].
Qed.

Lemma delimited_no_digit (rest : str) : delimited rest -> no_digit_ahead rest.
Proof.
  destruct rest as [|c rest]; [trivial|]. cbn. unfold is_digit.
  intros [->|[->| ->]]; reflexivity.
Qed.

Lemma is_digit_char (c : Z) : digit_char c -> is_digit c = true.
Proof.
  unfold digit_char, is_digit. intros H. apply andb_true_intro.
  split; apply Z.leb_le; lia.
Qed.

Lemma span_digits_app (ds rest : str) :
  Forall digit_char ds -> no_digit_ahead rest ->
  span_digits (ds ++ rest) = (ds, rest).
Proof.
  intros Hds Hrest. induction Hds as [|c ds Hc _ IH].
  - cbn [app]. destruct rest as [|c rest]; [reflexivity|].
    cbn in *. now rewrite Hrest.
  - cbn [app span_digits]. rewrite is_digit_char by assumption.
    now rewrite IH.
Qed.

Lemma match_integer_nat_repr (n : Z) (rest : str) :
  0 <= n -> no_digit_ahead rest ->
  match_integer (nat_repr n ++ rest) = Some (nat_repr n, rest).
Proof.
  intros Hn Hrest. destruct (Z.eq_dec n 0) as [->|Hne].
  - reflexivity.
  - destruct (nat_repr_leading n ltac:(lia)) as (c & cs & Hrepr & Hc).
    pose proof (nat_repr_digits n Hn) as Hds. rewrite Hrepr in *.
    inversion Hds as [|? ? Hc' Hcs]; subst.
    cbn [app match_integer].
    replace (c =? 48) with false by (symmetry; apply Z.eqb_neq; lia).
    rewrite is_digit_char by assumption.
    now rewrite span_digits_app.
Qed.

Lemma match_frac_delimited (rest : str) :
  delimited rest -> match_frac rest = ([], rest).
Proof.
  destruct rest as [|c rest]; [reflexivity|].
  intros [->|[->| ->]]; reflexivity.
Qed.

Lemma match_exp_delimited (rest : str) :
  delimited rest -> match_exp rest = ([], rest).
Proof.
  destruct rest as [|c rest]; [reflexivity|].
  intros [->|[->| ->]]; reflexivity.
Qed.

Lemma head_is_other (c x : Z) (s : str) : x <> c -> head_is c (x :: s) = None.
Proof.
  intros H. unfold head_is. cbn [strip_prefix].
  replace (c =? x) with false by (symmetry; apply Z.eqb_neq; lia).
  reflexivity.
Qed.

Lemma head_is_same (c : Z) (s : str) : head_is c (c :: s) = Some s.
Proof. unfold head_is. cbn [strip_prefix]. now rewrite Z.eqb_refl. Qed.

(** [_match_number] reads [int.__repr__] back. *)
Lemma match_number_int_repr (z : Z) (rest : str) :
  delimited rest ->
  match_number (int_repr z ++ rest) = Ok (Int z, rest).
Proof.
  intros Hrest. unfold int_repr, match_number.
  destruct (Z.ltb_spec z 0).
  - cbn [app]. rewrite head_is_same.
    rewrite match_integer_nat_repr
      by (try lia; now apply delimited_no_digit).
    rewrite match_frac_delimited, match_exp_delimited by assumption.
    rewrite int_of_digits_nat_repr by lia. f_equal. f_equal. f_equal. lia.
  - assert (Hhead : head_is 45 (nat_repr z ++ rest) = None).
    { pose proof (nat_repr_digits z ltac:(lia)) as Hds.
      destruct (nat_repr z) as [|c cs] eqn:E.
      - destruct (Z.eq_dec z 0) as [->|]; [discriminate|].
        destruct (nat_repr_leading z ltac:(lia)) as (? & ? & ? & _).
        congruence.
      - inversion Hds; subst. cbn [app]. apply head_is_other.
        unfold digit_char in *. lia. }
    rewrite Hhead.
    rewrite match_integer_nat_repr
      by (try lia; now apply delimited_no_digit).
    rewrite match_frac_delimited, match_exp_delimited by assumption.
    now rewrite int_of_digits_nat_repr by lia.
Qed.

Lemma int_repr_shape (z : Z) :
  exists c cs, int_repr z = c :: cs /\
               ((digit_char c) \/ (c = 45 /\ exists d ds, cs = d :: ds /\ digit_char d)).
Proof.
  unfold int_repr. destruct (Z.ltb_spec z 0).
  - exists 45, (nat_repr (- z)). split; [reflexivity|]. right. split; [reflexivity|].
    destruct (nat_repr_leading (- z) ltac:(lia)) as (d & ds & -> & Hd).
    exists d, ds. split; [reflexivity | unfold digit_char; lia].
  - pose proof (nat_repr_digits z ltac:(lia)) as Hds.
    destruct (Z.eq_dec z 0) as [->|].
    + exists 48, []. split; [reflexivity|]. left. unfold digit_char. lia.
    + destruct (nat_repr_leading z ltac:(lia)) as (d & ds & -> & Hd).
      exists d, ds. split; [reflexivity|]. left. unfold digit_char. lia.
Qed.

Lemma int_repr_ascii (z : Z) : Forall ascii7 (int_repr z).
Proof.
  unfold int_repr. destruct (Z.ltb_spec z 0).
  - constructor; [unfold ascii7; lia|].
    eapply Forall_impl; [|apply nat_repr_digits; lia].
    unfold digit_char, ascii7. intros; lia.
  - eapply Forall_impl; [|apply nat_repr_digits; lia].
    unfold digit_char, ascii7. intros; lia.
Qed.

Lemma match_constant_int_repr (z : Z) (rest : str) :
  match_constant constants (int_repr z ++ rest) = None.
Proof.
  destruct (int_repr_shape z) as (c & cs & -> & [Hc | (-> & d & ds & -> & Hd)]);
    unfold digit_char in *; cbn [app].
  - let t := eval vm_compute in constants in change constants with t.
    cbn [match_constant strip_prefix].
    repeat match goal with
           | |- context [?a =? c] =>
               replace (a =? c) with false by (symmetry; apply Z.eqb_neq; lia)
           end.
    reflexivity.
  - let t := eval vm_compute in constants in change constants with t.
    cbn [match_constant strip_prefix].
    repeat match goal with
           | |- context [?a =? 45] =>
               first [ change (a =? 45) with false
                     | change (a =? 45) with true ]
           end.
    cbv iota.
    replace (73 =? d) with false by (symmetry; apply Z.eqb_neq; lia).
    reflexivity.
Qed.

(** [scan_once] on the text of an integer. *)
Lemma scan_once_int_repr (fuel : nat) (z : Z) (rest : str) :
  delimited rest ->
  scan_once (S fuel) (int_repr z ++ rest) = Ok (Int z, rest).
Proof.
  intros Hrest.
  pose proof (match_constant_int_repr z rest) as Hconst.
  pose proof (match_number_int_repr z rest Hrest) as Hnum.
  destruct (int_repr_shape z) as (c & cs & E & Hc).
  rewrite E in *. cbn [app] in *. cbn [scan_once].
  assert (Hne : c <> 34 /\ c <> 123 /\ c <> 91).
  { unfold digit_char in Hc. destruct Hc as [Hc | [-> _]]; lia. }
  destruct Hne as (H1 & H2 & H3).
  apply Z.eqb_neq in H1, H2, H3. rewrite H1, H2, H3.
  rewrite Hconst. exact Hnum.
Qed.

(** *** Number literals in context *)

Lemma span_digits_spec (s : str) :
  s = fst (span_digits s) ++ snd (span_digits s) /\
  Forall digit_char (fst (span_digits s)) /\
  no_digit_ahead (snd (span_digits s)).
Proof.
  induction s as [|c s (IH1 & IH2 & IH3)]; [cbn; auto|].
  cbn [span_digits]. destruct (is_digit c) eqn:E.
  - destruct (span_digits s) as [ds r]. cbn [fst snd] in *.
    split; [cbn; congruence|]. split; [|assumption].
    constructor; [|assumption].
    unfold is_digit in E. apply andb_prop in E. unfold digit_char. lia.
  - cbn. auto.
Qed.

Lemma no_digit_ahead_app (r rest : str) :
  no_digit_ahead r -> no_digit_ahead rest -> no_digit_ahead (r ++ rest).
Proof. destruct r; cbn; auto. Qed.

(** A delimiter after the text does not change what the digit scan sees. *)
Lemma span_digits_append (s rest : str) :
  no_digit_ahead rest ->
  span_digits (s ++ rest) = (fst (span_digits s), snd (span_digits s) ++ rest).
Proof.
  intros Hrest. destruct (span_digits_spec s) as (Hs & Hds & Hr).
  rewrite Hs at 1. rewrite <- app_assoc.
  apply span_digits_app; [assumption|]. now apply no_digit_ahead_app.
Qed.

Lemma head_is_app (c : Z) (s rest r : str) :
  head_is c s = Some r -> head_is c (s ++ rest) = Some (r ++ rest).
Proof.
  unfold head_is. destruct s as [|x s]; [discriminate|]. cbn [app strip_prefix].
  destruct (c =? x); [|discriminate]. intros H. now inversion H.
Qed.

Lemma head_is_app_none (c : Z) (x : Z) (s rest : str) :
  head_is c (x :: s) = None -> head_is c ((x :: s) ++ rest) = None.
Proof.
  unfold head_is. cbn [app strip_prefix]. now destruct (c =? x).
Qed.

Lemma head_is_delimited (c : Z) (rest : str) :
  delimited rest -> c <> 44 -> c <> 93 -> c <> 125 -> head_is c rest = None.
Proof.
  destruct rest as [|x rest]; [reflexivity|].
  intros Hd H1 H2 H3. apply head_is_other. cbn in Hd. lia.
Qed.

Lemma match_integer_append (s rest ip r : str) :
  no_digit_ahead rest ->
  match_integer s = Some (ip, r) ->
  match_integer (s ++ rest) = Some (ip, r ++ rest).
Proof.
  intros Hrest. destruct s as [|c s]; [discriminate|].
  cbn [app match_integer]. destruct (c =? 48).
  - intros H. now inversion H.
  - destruct (is_digit c); [|discriminate].
    rewrite span_digits_append by assumption.
    destruct (span_digits s) as [ds r']. cbn [fst snd].
    intros H. now inversion H.
Qed.

Lemma match_frac_append (s rest : str) :
  delimited rest ->
  match_frac (s ++ rest) = (fst (match_frac s), snd (match_frac s) ++ rest).
Proof.
  intros Hrest. pose proof (delimited_no_digit rest Hrest) as Hnd.
  unfold match_frac. destruct s as [|x s].
  - cbn [app]. rewrite (head_is_delimited 46 rest) by (auto; lia).
    reflexivity.
  - destruct (head_is 46 (x :: s)) as [s'|] eqn:E.
    + rewrite (head_is_app _ _ rest _ E).
      rewrite span_digits_append by assumption.
      destruct (span_digits s') as [[|d ds] r]; reflexivity.
    + rewrite (head_is_app_none _ _ _ rest E). reflexivity.
Qed.

Lemma match_exp_append (s rest : str) :
  delimited rest ->
  match_exp (s ++ rest) = (fst (match_exp s), snd (match_exp s) ++ rest).
Proof.
  intros Hrest. pose proof (delimited_no_digit rest Hrest) as Hnd.
  destruct s as [|e s].
  - cbn [app]. rewrite match_exp_delimited by assumption. reflexivity.
  - cbn [app match_exp]. destruct ((e =? 101) || (e =? 69)); [|reflexivity].
    destruct s as [|c t].
    + cbn [app].
      destruct rest as [|c t]; [reflexivity|].
      cbn in Hrest. destruct Hrest as [->|[->| ->]]; reflexivity.
    + cbn [app]. destruct ((c =? 45) || (c =? 43)).
      * rewrite span_digits_append by assumption.
        destruct (span_digits t) as [[|d ds] r]; reflexivity.
      * change (c :: t ++ rest) with ((c :: t) ++ rest).
        rewrite span_digits_append by assumption.
        destruct (span_digits (c :: t)) as [[|d ds] r]; reflexivity.
Qed.

(** A delimiter after a number does not change how the number is read. *)
Lemma match_number_append (s rest : str) (v : value) (r : str) :
  delimited rest ->
  match_number s = Ok (v, r) ->
  match_number (s ++ rest) = Ok (v, r ++ rest).
Proof.
  intros Hrest. pose proof (delimited_no_digit rest Hrest) as Hnd.
  unfold match_number. destruct s as [|x s]; [discriminate|].
  destruct (head_is 45 (x :: s)) as [t|] eqn:Eh.
  - rewrite (head_is_app _ _ rest _ Eh).
    destruct (match_integer t) as [[ip s1]|] eqn:Ei; [|discriminate].
    rewrite (match_integer_append _ rest _ _ Hnd Ei).
    rewrite match_frac_append by assumption.
    destruct (match_frac s1) as [frac s2]. cbn [fst snd].
    rewrite match_exp_append by assumption.
    destruct (match_exp s2) as [exp s3]. cbn [fst snd].
    destruct frac, exp; intros H; inversion H; reflexivity.
  - rewrite (head_is_app_none _ _ _ rest Eh).
    destruct (match_integer (x :: s)) as [[ip s1]|] eqn:Ei; [|discriminate].
    rewrite (match_integer_append _ rest _ _ Hnd Ei).
    rewrite match_frac_append by assumption.
    destruct (match_frac s1) as [frac s2]. cbn [fst snd].
    rewrite match_exp_append by assumption.
    destruct (match_exp s2) as [exp s3]. cbn [fst snd].
    destruct frac, exp; intros H; inversion H; reflexivity.
Qed.

Lemma match_integer_head (s ip r : str) :
  match_integer s = Some (ip, r) ->
  exists c cs, s = c :: cs /\ digit_char c.
Proof.
  destruct s as [|c s]; [discriminate|]. cbn [match_integer].
  destruct (Z.eqb_spec c 48) as [->|Hne].
  - intros _. exists 48, s. split; [reflexivity | unfold digit_char; lia].
  - destruct (is_digit c) eqn:E; [|discriminate]. intros _.
    exists c, s. split; [reflexivity|].
    unfold is_digit in E. apply andb_prop in E. unfold digit_char. lia.
Qed.

Lemma match_number_head (s : str) (v : value) (r : str) :
  match_number s = Ok (v, r) -> number_head s.
Proof.
  unfold match_number, number_head.
  destruct s as [|x s]; [discriminate|].
  destruct (Z.eqb_spec x 45) as [->|Hne].
  - rewrite head_is_same.
    destruct (match_integer s) as [[ip s1]|] eqn:Ei; [|discriminate].
    destruct (match_integer_head _ _ _ Ei) as (d & ds & -> & Hd).
    intros _. exists 45, (d :: ds). split; [reflexivity|]. right. eauto.
  - rewrite head_is_other by assumption.
    destruct (match_integer (x :: s)) as [[ip s1]|] eqn:Ei; [|discriminate].
    destruct (match_integer_head _ _ _ Ei) as (d & ds & E & Hd).
    inversion E; subst. intros _. exists d, ds. auto.
Qed.

Lemma match_constant_number (s rest : str) :
  number_head s -> match_constant constants (s ++ rest) = None.
Proof.
  intros (c & cs & -> & [Hc | (-> & d & ds & -> & Hd)]);
    unfold digit_char in *; cbn [app].
  - let t := eval vm_compute in constants in change constants with t.
    cbn [match_constant strip_prefix].
    repeat match goal with
           | |- context [?a =? c] =>
               replace (a =? c) with false by (symmetry; apply Z.eqb_neq; lia)
           end.
    reflexivity.
  - let t := eval vm_compute in constants in change constants with t.
    cbn [match_constant strip_prefix].
    repeat match goal with
           | |- context [?a =? 45] =>
               first [ change (a =? 45) with false
                     | change (a =? 45) with true ]
           end.
    cbv iota.
    replace (73 =? d) with false by (symmetry; apply Z.eqb_neq; lia).
    reflexivity.
Qed.

(** [scan_once] on a number followed by a delimiter. *)
Lemma scan_once_number (fuel : nat) (s rest : str) (v : value) :
  delimited rest ->
  match_number s = Ok (v, []) ->
  scan_once (S fuel) (s ++ rest) = Ok (v, rest).
Proof.
  intros Hrest Hnum.
  pose proof (match_number_head _ _ _ Hnum) as Hhead.
  pose proof (match_constant_number s rest Hhead) as Hconst.
  pose proof (match_number_append s rest v [] Hrest Hnum) as Happ.
  destruct Hhead as (c & cs & E & Hc).
  rewrite E in *. cbn [app] in *. cbn [scan_once].
  assert (Hne : c <> 34 /\ c <> 123 /\ c <> 91).
  { unfold digit_char in Hc. destruct Hc as [Hc | [-> _]]; lia. }
  destruct Hne as (H1 & H2 & H3).
  apply Z.eqb_neq in H1, H2, H3. rewrite H1, H2, H3.
  rewrite Hconst. exact Happ.
Qed.

Lemma span_digits_ascii (s : str) : Forall ascii7 (fst (span_digits s)).
Proof.
  destruct (span_digits_spec s) as (_ & H & _).
  eapply Forall_impl; [|exact H]. unfold digit_char, ascii7. intros; lia.
Qed.

Lemma match_integer_ascii (s ip r : str) :
  match_integer s = Some (ip, r) -> Forall ascii7 ip.
Proof.
  destruct s as [|c s]; [discriminate|]. cbn [match_integer].
  destruct (c =? 48).
  - intros H; inversion H. repeat constructor; unfold ascii7; lia.
  - destruct (is_digit c) eqn:E; [|discriminate].
    pose proof (span_digits_ascii s) as Hs.
    destruct (span_digits s) as [ds r']. intros H; inversion H; subst.
    constructor; [|exact Hs].
    unfold is_digit in E. apply andb_prop in E. unfold ascii7. lia.
Qed.

Lemma match_frac_ascii (s : str) : Forall ascii7 (fst (match_frac s)).
Proof.
  unfold match_frac. destruct (head_is 46 s) as [s'|]; [|constructor].
  pose proof (span_digits_ascii s') as Hs.
  destruct (span_digits s') as [[|d ds] r]; [constructor|].
  cbn [fst] in *. constructor; [unfold ascii7; lia | exact Hs].
Qed.

Lemma match_exp_ascii (s : str) : Forall ascii7 (fst (match_exp s)).
Proof.
  unfold match_exp. destruct s as [|e s']; [constructor|].
  destruct ((e =? 101) || (e =? 69)) eqn:Ee; [|constructor].
  assert (He : ascii7 e).
  { apply orb_prop in Ee. unfold ascii7.
    destruct Ee as [Ee|Ee]; apply Z.eqb_eq in Ee; lia. }
  destruct s' as [|c t].
  - cbn. constructor.
  - destruct ((c =? 45) || (c =? 43)) eqn:Ec.
    + pose proof (span_digits_ascii t) as Hs.
      destruct (span_digits t) as [[|d ds] r]; [constructor|].
      cbn [fst] in *. constructor; [exact He|].
      cbn [app]. constructor; [|exact Hs].
      apply orb_prop in Ec. unfold ascii7.
      destruct Ec as [Ec|Ec]; apply Z.eqb_eq in Ec; lia.
    + pose proof (span_digits_ascii (c :: t)) as Hs.
      destruct (span_digits (c :: t)) as [[|d ds] r]; [constructor|].
      cbn [fst app] in *. constructor; [exact He | exact Hs].
Qed.

Lemma match_number_float_ascii (s l r : str) :
  match_number s = Ok (Float l, r) -> Forall ascii7 l.
Proof.
  unfold match_number.
  destruct (match head_is 45 s with Some t => (true, t) | None => (false, s) end)
    as [neg s0].
  destruct (match_integer s0) as [[ip s1]|] eqn:Ei; [|discriminate].
  pose proof (match_integer_ascii _ _ _ Ei) as Hip.
  pose proof (match_frac_ascii s1) as Hf.
  destruct (match_frac s1) as [frac s2].
  pose proof (match_exp_ascii s2) as He.
  destruct (match_exp s2) as [exp s3]. cbn [fst] in *.
  assert (Hsign : Forall ascii7 (if neg then [45] else [])).
  { destruct neg; repeat constructor. unfold ascii7. lia. }
  assert (Hall : Forall ascii7
                   ((if neg then [45] else []) ++ ip ++ frac ++ exp)).
  { rewrite !Forall_app. auto. }
  destruct frac, exp; intros H; inversion H; subst; exact Hall.
Qed.

End JsonNumberFacts.

(** ** [json.loads] inverts [json.dumps] on the JSON data model *)

Module JsonFacts.
Import Py Json Text Readback JsonEscapeFacts JsonStringFacts JsonNumberFacts.

Ltac norm_lit :=
  repeat match goal with
         | |- context [lit ?s] =>
             let t := eval vm_compute in (lit s) in change (lit s) with t
         end.

Lemma value_ind_nested (P : value -> Prop) :
  P None_ -> (forall b, P (Bool b)) -> (forall z, P (Int z)) ->
  (forall l, P (Float l)) -> (forall s, P (Str s)) ->
  (forall items, Forall P items -> P (List_ items)) ->
  (forall items, Forall (fun kv => P (snd kv)) items -> P (Dict items)) ->
  (forall o, P (Obj o)) ->
  forall v, P v.
Proof.
  intros HN HB HI HF HS HL HD HO.
  fix IH 1. intros [| b | z | l | s | items | items | o].
  - exact HN.
  - apply HB.
  - apply HI.
  - apply HF.
  - apply HS.
  - apply HL. induction items as [|x items IHitems].
    + constructor.
    + constructor; [apply IH | exact IHitems].
  - apply HD. induction items as [|[k x] items IHitems].
    + constructor.
    + constructor; [apply IH | exact IHitems].
  - apply HO.
Qed.

Section Equations.
Variable default : option (object -> result value).

Lemma iterencode_eq (depth : nat) (v : value) :
  iterencode default depth v =
  match v with
  | None_ => Ok (lit "null")
  | Bool true => Ok (lit "true")
  | Bool false => Ok (lit "false")
  | Int z => Ok (int_repr z)
  | Float literal => Ok literal
  | Str s => Ok (encode_basestring_ascii s)
  | List_ items =>
      chunks <- mapM (iterencode default depth) items ;;
      Ok (lit "[" ++ join chunks ++ lit "]")
  | Dict items =>
      chunks <- mapM (fun kv : str * value => let (k, x) := kv in
                        c <- iterencode default depth x ;;
                        Ok (key_chunk k c)) items ;;
      Ok (lit "{" ++ join chunks ++ lit "}")
  | Obj o =>
      match default with
      | None => Raise TypeError
      | Some f =>
          match depth with
          | O => Raise RecursionError
          | S depth' => v' <- f o ;; iterencode default depth' v'
          end
      end
  end.
Proof. destruct depth; destruct v; reflexivity. Qed.
End Equations.

Lemma skip_ws_head (txt rest : str) :
  head_ok txt -> skip_ws (txt ++ rest) = txt ++ rest.
Proof.
  intros (c & t & -> & Hws & _). cbn [app skip_ws]. now rewrite Hws.
Qed.

Lemma head_is_head_ok_93 (txt rest : str) :
  head_ok txt -> head_is 93 (txt ++ rest) = None.
Proof. intros (c & t & -> & _ & H & _). now apply head_is_other. Qed.

Lemma head_is_head_ok_125 (txt rest : str) :
  head_ok txt -> head_is 125 (txt ++ rest) = None.
Proof. intros (c & t & -> & _ & _ & H). now apply head_is_other. Qed.

Lemma reads_back_constant (w : str) (v : value) :
  In (w, v) [(lit "null", None_); (lit "true", Bool true);
             (lit "false", Bool false)] ->
  reads_back w v.
Proof.
  intros Hw. cbn [In] in Hw.
  destruct Hw as [E|[E|[E|[]]]]; inversion E; subst; clear E; norm_lit.
  all: split; [repeat constructor; unfold ascii7; lia|].
  all: split; [eexists _, _; split; [reflexivity|]; split; [reflexivity|]; split; lia|].
  all: intros [|fuel] rest Hf _; [cbn in Hf; lia | reflexivity].
Qed.

Lemma reads_back_int (z : Z) : reads_back (int_repr z) (Int z).
Proof.
  split; [apply int_repr_ascii|]. split.
  - destruct (int_repr_shape z) as (c & cs & -> & Hc).
    exists c, cs. unfold digit_char in Hc. split; [reflexivity|].
    assert (48 <= c <= 57 \/ c = 45) as Hc' by (destruct Hc as [|[-> _]]; lia).
    split; [|split; lia].
    unfold is_ws. repeat (apply orb_false_intro); apply Z.eqb_neq; lia.
  - intros [|fuel] rest Hf Hrest.
    + destruct (int_repr_shape z) as (c & cs & E & _). rewrite E in Hf.
      cbn in Hf. lia.
    + now apply scan_once_int_repr.
Qed.

Lemma reads_back_str (s : str) :
  text s = true -> reads_back (encode_basestring_ascii s) (Str s).
Proof.
  intros Hs. split; [now apply encode_basestring_ascii_ascii|]. split.
  - eexists _, _. unfold encode_basestring_ascii.
    split; [reflexivity|]. split; [reflexivity|]. split; lia.
  - intros [|fuel] rest Hf _; [cbn in Hf; lia|].
    unfold encode_basestring_ascii. cbn [app scan_once].
    change (34 =? 34) with true. cbv iota.
    rewrite <- app_assoc. cbn [app].
    rewrite scanstring_escaped by assumption. reflexivity.
Qed.


(** *** Arrays *)

Lemma join_two (c c2 : str) (cs : list str) :
  join (c :: c2 :: cs) = c ++ 44 :: 32 :: join (c2 :: cs).
Proof. reflexivity. Qed.

Lemma join_ascii (chunks : list str) :
  Forall (Forall ascii7) chunks -> Forall ascii7 (join chunks).
Proof.
  induction 1 as [|c cs Hc Hcs IH]; [constructor|].
  destruct cs as [|c2 cs]; [exact Hc|].
  rewrite join_two. apply Forall_app. split; [exact Hc|].
  constructor; [unfold ascii7; lia|].
  constructor; [unfold ascii7; lia|]. exact IH.
Qed.

Lemma join_head_ok (c : str) (cs : list str) :
  head_ok c -> head_ok (join (c :: cs)).
Proof.
  intros (x & t & -> & H). destruct cs as [|c2 cs].
  - now exists x, t.
  - rewrite join_two. cbn [app]. now eexists x, _.
Qed.

Lemma parse_array_chunks (chunks : list str) (items : list value) :
  Forall2 reads_back chunks items -> chunks <> [] ->
  forall fuel values rest,
    (List.length (join chunks) + 1 <= fuel)%nat ->
    parse_array fuel (join chunks ++ 93 :: rest) values
    = Ok (List_ (rev values ++ items), rest).
Proof.
  induction 1 as [|c v cs vs Hcv Hrest IH]; [congruence|intros _].
  intros [|fuel] values rest Hfuel; [lia|].
  destruct Hcv as (_ & Hhead & Hscan).
  destruct cs as [|c2 cs].
  - inversion Hrest; subst. cbn [join] in *. cbn [parse_array].
    rewrite Hscan by (cbn; auto; lia).
    cbn [bind fst snd skip_ws]. change (is_ws 93) with false. cbv iota.
    rewrite head_is_same. cbn [rev]. reflexivity.
  - rewrite join_two in *. rewrite <- app_assoc. cbn [app].
    rewrite length_app in Hfuel. cbn [List.length] in Hfuel.
    cbn [parse_array].
    rewrite Hscan by (cbn; auto; lia).
    cbn [bind fst snd skip_ws]. change (is_ws 44) with false. cbv iota.
    rewrite head_is_other by lia. rewrite head_is_same.
    cbn [skip_ws]. change (is_ws 32) with true. cbv iota.
    assert (Hh2 : head_ok (join (c2 :: cs))).
    { inversion Hrest as [|? ? ? ? (_ & Hh & _) _]; subst.
      now apply join_head_ok. }
    rewrite skip_ws_head by assumption.
    rewrite IH by (try congruence; lia).
    cbn [rev]. now rewrite <- app_assoc.
Qed.

Lemma reads_back_list (chunks : list str) (items : list value) :
  Forall2 reads_back chunks items ->
  reads_back (91 :: join chunks ++ [93]) (List_ items).
Proof.
  intros H. split; [|split].
  - constructor; [unfold ascii7; lia|]. apply Forall_app. split.
    + apply join_ascii. clear -H.
      induction H as [|? ? ? ? (Ha & _) _ IH]; constructor; assumption.
    + repeat constructor; unfold ascii7; lia.
  - eexists _, _. split; [reflexivity|]. split; [reflexivity|]. split; lia.
  - intros [|fuel] rest Hf _; [cbn in Hf; lia|].
    cbn [app scan_once]. change (91 =? 34) with false.
    change (91 =? 123) with false. change (91 =? 91) with true. cbv iota.
    rewrite <- app_assoc. cbn [app].
    destruct H as [|c v cs vs Hcv Hrest].
    + reflexivity.
    + assert (Hh : head_ok (join (c :: cs))).
      { destruct Hcv as (_ & Hh & _). now apply join_head_ok. }
      rewrite skip_ws_head by assumption.
      rewrite head_is_head_ok_93 by assumption.
      rewrite (parse_array_chunks (c :: cs) (v :: vs)); [reflexivity | | |].
      * now constructor.
      * congruence.
      * cbn [List.length] in Hf. rewrite length_app in Hf.
        cbn [List.length] in Hf. lia.
Qed.

(** *** Objects *)

Lemma key_chunk_head (k c : str) : head_is 34 (key_chunk k c) = Some
  (flat_map escape_char k ++ 34 :: 58 :: 32 :: c).
Proof.
  unfold key_chunk, encode_basestring_ascii. cbn [app].
  rewrite head_is_same. rewrite <- app_assoc. reflexivity.
Qed.

Lemma key_chunk_length (k c : str) :
  (List.length c + 4 <= List.length (key_chunk k c))%nat.
Proof.
  unfold key_chunk, encode_basestring_ascii. cbn [app List.length].
  rewrite !length_app. cbn [List.length].
  change (List.length (lit ": ")) with 2%nat. lia.
Qed.

Lemma key_chunk_head_ok (k c : str) : head_ok (key_chunk k c).
Proof.
  unfold key_chunk, encode_basestring_ascii. cbn [app].
  eexists _, _. split; [reflexivity|]. split; [reflexivity|]. split; lia.
Qed.

Lemma key_chunk_starts (k c : str) :
  exists t, key_chunk k c = 34 :: t.
Proof. unfold key_chunk, encode_basestring_ascii. cbn [app]. eauto. Qed.

Lemma parse_object_step (fuel : nat) (k c rest : str) (v : value)
      (pairs : list (str * value)) :
  text k = true -> reads_back c v ->
  (List.length c <= fuel)%nat -> delimited rest ->
  parse_object (S fuel) (key_chunk k c ++ rest) pairs =
  (let pairs' := dict_set pairs k v in
   let s3 := skip_ws rest in
   match head_is 125 s3 with
   | Some s4 => Ok (Dict pairs', s4)
   | None =>
       match head_is 44 s3 with
       | Some s4 => parse_object fuel (skip_ws s4) pairs'
       | None => Raise JSONDecodeError
       end
   end).
Proof.
  intros Hk (_ & Hhead & Hscan) Hfuel Hrest.
  cbn [parse_object].
  assert (E : head_is 34 (key_chunk k c ++ rest)
              = Some (flat_map escape_char k ++ 34 :: 58 :: 32 :: c ++ rest)).
  { unfold key_chunk, encode_basestring_ascii. cbn [app].
    rewrite head_is_same. rewrite <- !app_assoc. reflexivity. }
  rewrite E. rewrite scanstring_escaped by assumption.
  cbn [bind fst snd rev app skip_ws]. change (is_ws 58) with false. cbv iota.
  rewrite head_is_same. cbn [skip_ws]. change (is_ws 32) with true. cbv iota.
  rewrite skip_ws_head by assumption.
  rewrite Hscan by assumption. reflexivity.
Qed.

Lemma parse_object_chunks (chunks : list str) (items : list (str * value)) :
  Forall2 item_reads_back chunks items -> chunks <> [] ->
  forall fuel pairs rest,
    (List.length (join chunks) + 1 <= fuel)%nat ->
    parse_object fuel (join chunks ++ 125 :: rest) pairs
    = Ok (Dict (build pairs items), rest).
Proof.
  induction 1 as [|ch [k v] cs vs Hcv Hrest IH]; [congruence|intros _].
  intros [|fuel] pairs rest Hfuel; [lia|].
  destruct Hcv as (c & -> & Hk & Hc). cbn [fst snd] in *.
  pose proof (key_chunk_length k c) as Hlen.
  destruct cs as [|c2 cs].
  - inversion Hrest; subst. cbn [join] in *.
    rewrite (parse_object_step fuel k c _ v pairs Hk Hc) by (cbn; auto; lia).
    cbv zeta. cbn [skip_ws]. change (is_ws 125) with false. cbv iota.
    rewrite head_is_same. reflexivity.
  - rewrite join_two in *. rewrite <- app_assoc. cbn [app].
    rewrite length_app in Hfuel. cbn [List.length] in Hfuel.
    rewrite (parse_object_step fuel k c _ v pairs Hk Hc) by (cbn; auto; lia).
    cbv zeta. cbn [skip_ws]. change (is_ws 44) with false. cbv iota.
    rewrite head_is_other by lia. rewrite head_is_same.
    cbn [skip_ws]. change (is_ws 32) with true. cbv iota.
    assert (Hh2 : head_ok (join (c2 :: cs))).
    { inversion Hrest as [|? ? ? ? (c' & -> & _) _]; subst.
      apply join_head_ok, key_chunk_head_ok. }
    rewrite skip_ws_head by assumption.
    rewrite IH by (try congruence; lia).
    reflexivity.
Qed.

Lemma str_eqb_eq (a b : str) : str_eqb a b = true <-> a = b.
Proof.
  unfold str_eqb. destruct (list_eq_dec Z.eq_dec a b); split; congruence.
Qed.

Lemma dict_set_fresh (d : list (str * value)) (k : str) (v : value) :
  existsb (str_eqb k) (map fst d) = false -> dict_set d k v = d ++ [(k, v)].
Proof.
  induction d as [|[k' v'] d IH]; intros H; [reflexivity|].
  cbn [map fst existsb] in H. apply orb_false_iff in H. destruct H as [H1 H2].
  cbn [dict_set app].
  destruct (str_eqb k' k) eqn:E.
  - apply str_eqb_eq in E. subst k'.
    assert (str_eqb k k = true) by now apply str_eqb_eq. congruence.
  - now rewrite IH.
Qed.

Lemma existsb_app_false {A} (f : A -> bool) (l1 l2 : list A) :
  existsb f (l1 ++ l2) = false <-> existsb f l1 = false /\ existsb f l2 = false.
Proof. rewrite existsb_app. apply orb_false_iff. Qed.

Lemma distinct_app_cons (ks : list str) (k : str) (rest : list str) :
  distinct (ks ++ k :: rest) = true ->
  existsb (str_eqb k) ks = false /\ distinct ((ks ++ [k]) ++ rest) = true.
Proof.
  intros H. rewrite <- app_assoc. cbn [app]. split; [|exact H].
  induction ks as [|k0 ks IH].
  - reflexivity.
  - cbn [app distinct] in H. apply andb_prop in H. destruct H as [H1 H2].
    apply negb_true_iff in H1. apply existsb_app_false in H1.
    destruct H1 as [_ H1]. cbn [existsb] in H1.
    apply orb_false_iff in H1. destruct H1 as [H1 _].
    cbn [existsb]. apply orb_false_iff. split; [|now apply IH].
    destruct (str_eqb k k0) eqn:E; [|reflexivity].
    apply str_eqb_eq in E. subst.
    assert (str_eqb k0 k0 = true) by now apply str_eqb_eq. congruence.
Qed.

Lemma float_literal_spec (l : str) :
  float_literal l = true -> match_number l = Ok (Float l, []).
Proof.
  unfold float_literal.
  destruct (match_number l) as [[v r]|]; [|discriminate].
  destruct v; try discriminate. destruct r; [|discriminate].
  intros H. apply str_eqb_eq in H. now subst.
Qed.

(** A float literal is read back as the float it denotes. *)
Lemma reads_back_float (l : str) :
  float_literal l = true -> reads_back l (Float l).
Proof.
  intros H. apply float_literal_spec in H.
  pose proof (match_number_head _ _ _ H) as (c & cs & E & Hc).
  split; [exact (match_number_float_ascii _ _ _ H)|]. split.
  - exists c, cs. split; [exact E|]. unfold digit_char in Hc.
    assert (48 <= c <= 57 \/ c = 45) as Hc' by (destruct Hc as [|[-> _]]; lia).
    split; [|split; lia].
    unfold is_ws. repeat (apply orb_false_intro); apply Z.eqb_neq; lia.
  - intros [|fuel] rest Hf Hrest.
    + rewrite E in Hf. cbn in Hf. lia.
    + now apply scan_once_number.
Qed.

(** Items with pairwise distinct keys build the dict they came from. *)
Lemma build_distinct (items pairs : list (str * value)) :
  distinct (map fst (pairs ++ items)) = true ->
  build pairs items = pairs ++ items.
Proof.
  revert pairs. induction items as [|[k v] items IH]; intros pairs H.
  - cbn. now rewrite app_nil_r.
  - unfold build in *. cbn [fold_left fst snd].
    rewrite map_app in H. cbn [map fst] in H.
    apply distinct_app_cons in H. destruct H as [Hfresh Hd].
    rewrite dict_set_fresh by assumption.
    rewrite IH.
    + now rewrite <- app_assoc.
    + rewrite !map_app. cbn [map fst]. exact Hd.
Qed.

Lemma reads_back_dict (chunks : list str) (items : list (str * value)) :
  Forall2 item_reads_back chunks items ->
  distinct (map fst items) = true ->
  reads_back (123 :: join chunks ++ [125]) (Dict items).
Proof.
  intros H Hd. split; [|split].
  - constructor; [unfold ascii7; lia|]. apply Forall_app. split.
    + apply join_ascii. clear -H.
      induction H as [|? [k v] ? ? (c & -> & Hk & (Ha & _)) _ IH];
        constructor; [|assumption].
      unfold key_chunk. apply Forall_app. split.
      * now apply encode_basestring_ascii_ascii.
      * cbn [fst snd] in *. norm_lit. cbn [app].
        constructor; [unfold ascii7; lia|].
        constructor; [unfold ascii7; lia|]. assumption.
    + repeat constructor; unfold ascii7; lia.
  - eexists _, _. split; [reflexivity|]. split; [reflexivity|]. split; lia.
  - intros [|fuel] rest Hf _; [cbn in Hf; lia|].
    cbn [app scan_once]. change (123 =? 34) with false.
    change (123 =? 123) with true. cbv iota.
    rewrite <- app_assoc. cbn [app].
    destruct H as [|ch [k v] cs vs Hcv Hrest].
    + reflexivity.
    + assert (Hh : head_ok (join (ch :: cs))).
      { destruct Hcv as (c & -> & _). apply join_head_ok, key_chunk_head_ok. }
      rewrite skip_ws_head by assumption.
      rewrite head_is_head_ok_125 by assumption.
      rewrite (parse_object_chunks (ch :: cs) ((k, v) :: vs)).
      * rewrite build_distinct by exact Hd. reflexivity.
      * now constructor.
      * congruence.
      * cbn [List.length] in Hf. rewrite length_app in Hf.
        cbn [List.length] in Hf. lia.
Qed.


(** *** Values *)

Lemma mapM_cons {A B} (f : A -> result B) (x : A) (l : list A) :
  mapM f (x :: l) =
  match f x with
  | Ok y => match mapM f l with
            | Ok ys => Ok (y :: ys)
            | Raise e => Raise e
            end
  | Raise e => Raise e
  end.
Proof. reflexivity. Qed.

Section Values.
Variable default : option (object -> result value).
Variable depth : nat.

Abbreviation enc := (iterencode default depth).

Lemma mapM_reads_back (items : list value) :
  Forall (fun v => json_compatible v = true ->
                   exists txt, enc v = Ok txt /\ reads_back txt v) items ->
  forallb json_compatible items = true ->
  exists chunks, mapM enc items = Ok chunks /\
                 Forall2 reads_back chunks items.
Proof.
  induction 1 as [|v items Hv _ IH]; intros Hc.
  - exists []. split; [reflexivity | constructor].
  - cbn [forallb] in Hc. apply andb_prop in Hc. destruct Hc as [Hc1 Hc2].
    destruct (Hv Hc1) as (txt & E & Hrb).
    destruct (IH Hc2) as (chunks & E' & Hall).
    exists (txt :: chunks). rewrite mapM_cons.
    rewrite E, E'. split; [reflexivity | now constructor].
Qed.

Lemma mapM_items_read_back (items : list (str * value)) :
  Forall (fun kv => json_compatible (snd kv) = true ->
            exists txt, enc (snd kv) = Ok txt /\ reads_back txt (snd kv))
         items ->
  forallb (fun kv : str * value =>
             let (k, x) := kv in text k && json_compatible x) items = true ->
  exists chunks,
    mapM (fun kv : str * value => let (k, x) := kv in
            c <- enc x ;; Ok (key_chunk k c)) items = Ok chunks /\
    Forall2 item_reads_back chunks items.
Proof.
  induction 1 as [|[k v] items Hv _ IH]; intros Hc.
  - exists []. split; [reflexivity | constructor].
  - cbn [forallb] in Hc. apply andb_prop in Hc. destruct Hc as [Hc1 Hc2].
    apply andb_prop in Hc1. destruct Hc1 as [Hk Hc1].
    destruct (Hv Hc1) as (txt & E & Hrb). cbn [snd] in E, Hrb.
    destruct (IH Hc2) as (chunks & E' & Hall).
    exists (key_chunk k txt :: chunks). rewrite mapM_cons.
    rewrite E. cbn [bind]. rewrite E'. split; [reflexivity|].
    constructor; [|assumption].
    exists txt. cbn [fst snd]. auto.
Qed.

End Values.

(** Every value of the JSON data model is serialized, to ASCII text that
    the scanner reads back as the same value. *)
Lemma iterencode_reads_back (default : option (object -> result value))
      (depth : nat) (v : value) :
  json_compatible v = true ->
  exists txt, iterencode default depth v = Ok txt /\ reads_back txt v.
Proof.
  induction v as [| b | z | l | s | items IH | items IH | o]
    using value_ind_nested; intros Hc; rewrite iterencode_eq.
  - eexists. split; [reflexivity|]. apply reads_back_constant. cbn; auto.
  - destruct b; (eexists; split; [reflexivity|]);
      apply reads_back_constant; cbn; auto.
  - eexists. split; [reflexivity|]. apply reads_back_int.
  - eexists. split; [reflexivity|]. now apply reads_back_float.
  - eexists. split; [reflexivity|]. now apply reads_back_str.
  - cbn [json_compatible] in Hc.
    destruct (mapM_reads_back default depth items IH Hc) as (chunks & -> & H).
    eexists. split; [reflexivity|]. norm_lit. cbn [app].
    now apply reads_back_list.
  - cbn [json_compatible] in Hc. apply andb_prop in Hc. destruct Hc as [Hc Hd].
    destruct (mapM_items_read_back default depth items IH Hc)
      as (chunks & -> & H).
    eexists. split; [reflexivity|]. norm_lit. cbn [app].
    now apply reads_back_dict.
  - discriminate.
Qed.



Lemma delimited_nil : delimited [].
Proof. exact I. Qed.

(** [json.loads(json.dumps(v, default=...)) == v] on the JSON data
    model, with or without a [default] hook. *)
Lemma loads_dumps (default : option (object -> result value)) (v : value) :
  json_compatible v = true ->
  exists txt, dumps default v = Ok txt /\ Forall ascii7 txt /\
              loads txt = Ok v.
Proof.
  intros Hc. unfold dumps.
  destruct (iterencode_reads_back default recursion_limit v Hc)
    as (txt & -> & Hascii & Hhead & Hscan).
  exists txt. split; [reflexivity|]. split; [assumption|].
  unfold loads.
  assert (Hbom : head_is 0xFEFF txt = None).
  { destruct Hhead as (c & t & -> & _). inversion Hascii; subst.
    apply head_is_other. unfold ascii7 in *. lia. }
  rewrite Hbom.
  rewrite <- (app_nil_r txt) at 2. rewrite skip_ws_head by assumption.
  rewrite Hscan by (auto using delimited_nil; lia).
  reflexivity.
Qed.

End JsonFacts.

(** ** UTF-8 and Base64 on ASCII text *)

Module Utf8Facts.
Import Py Utf8 Text JsonEscapeFacts.

Lemma encode_ascii (s : str) : Forall ascii7 s -> encode s = Ok s.
Proof.
  induction 1 as [|c s Hc _ IH]; [reflexivity|].
  cbn [encode]. rewrite IH. unfold encode_char, is_surrogate, ascii7 in *.
  replace (c <? 0) with false by (symmetry; apply Z.ltb_ge; lia).
  replace (1114111 <? c) with false by (symmetry; apply Z.ltb_ge; lia).
  replace (55296 <=? c) with false by (symmetry; apply Z.leb_gt; lia).
  replace (c <? 128) with true by (symmetry; apply Z.ltb_lt; lia).
  reflexivity.
Qed.

Lemma decode_ascii (s : bytes) : Forall ascii7 s -> decode s = Ok s.
Proof.
  induction 1 as [|c s Hc _ IH]; [reflexivity|].
  cbn [decode]. rewrite IH. unfold ascii7 in *.
  replace (0 <=? c) with true by (symmetry; apply Z.leb_le; lia).
  replace (c <? 128) with true by (symmetry; apply Z.ltb_lt; lia).
  reflexivity.
Qed.

Lemma ascii_octets (s : str) :
  Forall ascii7 s -> Forall octet s.
Proof.
  apply Forall_impl. unfold ascii7, octet. intros; lia.
Qed.

End Utf8Facts.

(** ** The scanner never runs out of fuel under [json.loads] *)

Module JsonTotal.
Import Py Json Readback.

Abbreviation len := (@List.length Z).

















End JsonTotal.

(* ================================================================== *)
(** * Part IV: the row                                                 *)
(* ================================================================== *)

(** ** The update loop in closed form *)

Module UpdateFacts.
Import Py Effects EventSourceSchema Patch.

Lemma update_loop_app (l1 l2 : list (string * value))
      (u : EventSourceUpdate.t) (self : t) :
  update_loop (l1 ++ l2) u self =
  match update_loop l1 u self with
  | (self', Ok _) => update_loop l2 u self'
  | (self', Raise e) => (self', Raise e)
  end.
Proof.
  revert self. induction l1 as [|[f v] l1 IH]; intros self; [reflexivity|].
  cbn [app update_loop].
  destruct (String.eqb f "configuration").
  - destruct (encode_configuration None _); [apply IH | reflexivity].
  - destruct (existsb _ _); apply IH.
Qed.

Lemma update_loop_closed (self : t) (u : EventSourceUpdate.t) :
  update_loop (EventSourceUpdate.dict_exclude_unset u) u self =
  match EventSourceUpdate.configuration u with
  | None => (patched self u, Ok tt)
  | Some c =>
      match encode_configuration None (Dict c) with
      | Ok blob => (set_configuration (patched self u) blob, Ok tt)
      | Raise e => (patched self u, Raise e)
      end
  end.
Proof.
  destruct self as [i c up n wi w ui us tr f pt ps d cfg].
  destruct u as [uu uw un uf upt ups ud uc ur].
  unfold EventSourceUpdate.dict_exclude_unset, patched.
  cbn [EventSourceUpdate.user EventSourceUpdate.workspace
       EventSourceUpdate.name EventSourceUpdate.flavor
       EventSourceUpdate.plugin_type EventSourceUpdate.plugin_subtype
       EventSourceUpdate.description EventSourceUpdate.configuration
       EventSourceUpdate.rotate_secret
       id created updated name workspace_id workspace user_id user triggers
       flavor plugin_type plugin_subtype description configuration].
  destruct uu, uw, un, uf, upt, ups, ud, ur;
    cbn [EventSourceUpdate.item app update_loop String.eqb Ascii.eqb Bool.eqb
         existsb orb setattr EventSourceUpdate.uuid_value assigned_or or_else];
    (destruct uc as [c0|];
     [ cbn [EventSourceUpdate.item app update_loop String.eqb Ascii.eqb Bool.eqb
            existsb orb
            EventSourceUpdate.configuration_attr
            EventSourceUpdate.configuration];
       destruct (encode_configuration None (Dict c0)); reflexivity
     | reflexivity ]).
Qed.

Lemma update_closed (self : t) (u : EventSourceUpdate.t) (now : datetime) :
  update self u now =
  match EventSourceUpdate.configuration u with
  | None => (set_updated (patched self u) now, Ok tt)
  | Some c =>
      match encode_configuration None (Dict c) with
      | Ok blob =>
          (set_updated (set_configuration (patched self u) blob) now, Ok tt)
      | Raise e => (patched self u, Raise e)
      end
  end.
Proof.
  unfold update. rewrite update_loop_closed.
  destruct (EventSourceUpdate.configuration u) as [c|]; [|reflexivity].
  destruct (encode_configuration None (Dict c)); reflexivity.
Qed.

End UpdateFacts.

(** ** The configuration codec *)

Module CodecFacts.
Import Py Json Effects EventSourceSchema.






(** Decoding inverts encoding on the JSON data model, whichever
    [default] hook the encoder was given. *)
Lemma decode_encode_configuration
      (default : option (object -> result value)) (c : value) :
  json_compatible c = true ->
  exists blob, encode_configuration default c = Ok blob /\
               decode_configuration blob = Ok c.
Proof.
  intros Hc.
  destruct (JsonFacts.loads_dumps default c Hc) as (txt & Hd & Hascii & Hl).
  exists (Base64.b64encode txt). unfold encode_configuration.
  rewrite Hd. cbn [bind]. rewrite Utf8Facts.encode_ascii by assumption.
  cbn [bind]. split; [reflexivity|].
  unfold decode_configuration.
  rewrite Base64Facts.b64decode_b64encode
    by now apply Utf8Facts.ascii_octets.
  cbn [bind]. rewrite Utf8Facts.decode_ascii by assumption.
  cbn [bind]. exact Hl.
Qed.


(** The codec at work on a configuration with a float, a negative
    integer, an escaped string and nesting. *)
Example codec_sample :
  let c := Dict [(lit "ratio", Float (lit "2.5e-3"));
                 (lit "offset", Int (-120));
                 (lit "path", Str [34; 92; 10; 233; 128512]);
                 (lit "nested", Dict [(lit "on", Bool true);
                                      (lit "tags", List_ [None_; Int 0])])] in
  json_compatible c = true /\
  Json.encode_basestring_ascii [34; 92; 10; 233; 128512]
  = [34] ++ [92; 34] ++ [92; 92] ++ lit "\n\u00e9\ud83d\ude00" ++ [34] /\
  exists blob, encode_configuration None c = Ok blob /\
               decode_configuration blob = Ok c.
Proof.
  cbv zeta. split; [reflexivity|]. split; [reflexivity|].
  eexists. split; [vm_compute; reflexivity|]. vm_compute. reflexivity.
Qed.

End CodecFacts.

(** ** The projection of a row *)

Module ToModelFacts.
Import Py Effects EventSourceSchema Patch.

Lemma to_model_unhydrated (r : t) :
  user_typed r = true ->
  to_model r false =
  (user_events r,
   Ok (EventSourceResponse.mk (id r) (name r) (Some (body_of r)) None)).
Proof.
  unfold user_typed, to_model, resolve_user, user_events, body_of, body_user.
  destruct (user r); [reflexivity | reflexivity | discriminate].
Qed.

Lemma to_model_hydrated (r : t) (w : WorkspaceSchema.t) :
  workspace r = Loaded w -> user_typed r = true ->
  to_model r true =
  (user_events r ++ [WorkspaceToModel; ConfigurationDecode],
   match decode_configuration (configuration r) with
   | Ok c =>
       match Pydantic.validate_dict c with
       | Ok c' =>
           Ok (EventSourceResponse.mk (id r) (name r) (Some (body_of r))
                 (Some (EventSourceResponseMetadata.mk
                          (workspace_to_model w) (description r) c')))
       | Raise e => Raise e
       end
   | Raise e => Raise e
   end).
Proof.
  intros Hw Hu.
  unfold user_typed, to_model, resolve_user, resolve_workspace,
    user_events, body_of, body_user in *.
  rewrite Hw.
  destruct (user r); try discriminate;
    (destruct (decode_configuration (configuration r)) as [c|e];
     cbn [rbind ret tick lift raise fst snd app];
     [destruct (Pydantic.validate_dict c) as [c'|e]|]; reflexivity).
Qed.


(** What a projection that returned has returned, and done. *)
Lemma to_model_returned (r : t) (h : bool) (resp : EventSourceResponse.t) :
  outcome (to_model r h) = Ok resp ->
  EventSourceResponse.id resp = id r /\
  EventSourceResponse.name resp = name r /\
  EventSourceResponse.body resp = Some (body_of r) /\
  trace (to_model r h) = projection_events r h /\
  (h = false -> EventSourceResponse.metadata resp = None) /\
  (h = true ->
   exists w c,
     workspace r = Loaded w /\
     decode_configuration (configuration r) = Ok (Dict c) /\
     EventSourceResponse.metadata resp =
     Some (EventSourceResponseMetadata.mk
             (workspace_to_model w) (description r) c)).
Proof.
  unfold to_model, resolve_user, resolve_workspace, body_of, body_user,
    projection_events, user_events, outcome, trace.
  destruct h.
  - destruct (workspace r) as [| w | v] eqn:Hw;
      (destruct (user r) as [| u | [ | | | | | | | ]]; cbn; try discriminate);
      (destruct (decode_configuration (configuration r)) as [c|e] eqn:Hd;
       cbn; try discriminate);
      (destruct c; cbn; try discriminate);
      intros H; inversion H; subst; cbn;
      (repeat split; try reflexivity; try discriminate);
      intros _; eexists _, _; repeat split; reflexivity.
  - destruct (user r) as [| u | [ | | | | | | | ]]; cbn; try discriminate;
      intros H; inversion H; subst; cbn;
      (repeat split; try reflexivity; try discriminate).
Qed.

Lemma to_model_no_fetch (r : t) (h : bool) :
  count is_fetch (trace (to_model r h)) = 0%nat.
Proof.
  unfold to_model, resolve_user, resolve_workspace, trace.
  destruct h;
    (destruct (user r) as [| u | [ | | | | | | | ]]; cbn; try reflexivity);
    (destruct (workspace r) as [| w | v]; cbn; try reflexivity);
    (destruct (decode_configuration (configuration r)) as [c|e];
     cbn; try reflexivity);
    destruct c; reflexivity.
Qed.

End ToModelFacts.

(** ** Hydration through the store *)

Module HydrationFacts.
Import Py Effects Hydration.

Lemma get_hydrated_version_fetches (store : zen_store)
      (r : EventSourceResponse.t) :
  count is_fetch (trace (get_hydrated_version store r)) = 1%nat.
Proof.
  unfold get_hydrated_version, get_event_source.
  destruct (find _ store) as [row|].
  - pose proof (ToModelFacts.to_model_no_fetch row true) as H.
    destruct (EventSourceSchema.to_model row true) as [t o].
    unfold trace in *. cbn in *. now rewrite H.
  - reflexivity.
Qed.

Lemma description_hydrated (store : zen_store) (r : EventSourceResponse.t)
      (m : EventSourceResponseMetadata.t) :
  EventSourceResponse.metadata r = Some m ->
  description store r
  = ([], Ok (r, EventSourceResponseMetadata.description m)).
Proof.
  intros H. unfold description, get_metadata. now rewrite H.
Qed.

Lemma description_unhydrated (store : zen_store) (r r' : EventSourceResponse.t)
      (d : str) :
  EventSourceResponse.metadata r = None ->
  outcome (description store r) = Ok (r', d) ->
  trace (description store r) = trace (get_hydrated_version store r) /\
  exists m, r' = EventSourceResponse.set_metadata r (Some m) /\
            d = EventSourceResponseMetadata.description m.
Proof.
  intros Hm. unfold description, get_metadata. rewrite Hm.
  destruct (get_hydrated_version store r) as [t [hyd|e]];
    unfold outcome, trace; cbn; [|discriminate].
  destruct (EventSourceResponse.metadata hyd) as [m|]; cbn; [|discriminate].
  intros H. inversion H; subst. rewrite !app_nil_r. eauto.
Qed.

End HydrationFacts.

(* ================================================================== *)
(** * Part V: the properties of the specification                      *)
(* ================================================================== *)

Module Properties.
Import Py Json Effects EventSourceSchema Patch Samples.







(** C5 (P4, I5), as the code has it.  A call of [update] that returns
    leaves in [updated] the clock reading it took, whatever the update set
    (nothing at all, or [rotate_secret] alone, included).  So [updated]
    grows across the call exactly when that reading is later than the
    value stored before: strictly when it is strictly later, weakly when
    it is not earlier. *)
Theorem update_stamps_clock
        (r : t) (u : EventSourceUpdate.t) (now : datetime) :
  snd (update r u now) = Ok tt ->
  updated (fst (update r u now)) = now /\
  (updated r < now -> updated r < updated (fst (update r u now))) /\
  (updated r <= now -> updated r <= updated (fst (update r u now))).
Proof.
  rewrite UpdateFacts.update_closed.
  destruct (EventSourceUpdate.configuration u) as [c|].
  - destruct (encode_configuration None (Dict c)); cbn; [auto | discriminate].
  - cbn. auto.
Qed.

Lemma update_stamps_clock_witness :
  snd (update row_a update_rotate 200) = Ok tt /\
  updated (fst (update row_a update_rotate 200)) = 200 /\
  updated row_a < updated (fst (update row_a update_rotate 200)).
Proof.
  assert (H : snd (update row_a update_rotate 200) = Ok tt) by reflexivity.
  destruct (update_stamps_clock row_a update_rotate 200 H) as (H1 & H2 & _).
  split; [exact H|]. split; [exact H1|]. apply H2. reflexivity.
Defined.

(** C5 as stated fails: nothing in [update] compares the clock reading
    with the stored value, so a reading that is not later leaves [updated]
    not increased.  Here the row was stamped at 100 and the call reads
    the clock at 100 and, in a second run, at 50. *)
Lemma update_does_not_always_advance :
  snd (update row_a EventSourceUpdate.empty 100) = Ok tt /\
  ~ updated row_a < updated (fst (update row_a EventSourceUpdate.empty 100)) /\
  snd (update row_a EventSourceUpdate.empty 50) = Ok tt /\
  updated (fst (update row_a EventSourceUpdate.empty 50)) < updated row_a.
Proof.
  split; [reflexivity|]. split; [cbn; lia|]. split; [reflexivity|].
  cbn. lia.
Qed.

(** C6 (P5), as the code has it.  [from_request] takes one argument, the
    request, and the row it builds has the workspace and the owner that
    the request carries in its [workspace] and [user] fields. *)
Theorem from_request_scope
        (new_id : UUID) (now : datetime) (request : EventSourceRequest.t)
        (row : t) :
  from_request new_id now request = Ok row ->
  workspace_id row = EventSourceRequest.workspace request /\
  user_id row = EventSourceRequest.user request.
Proof.
  unfold from_request.
  destruct (encode_configuration _ _); cbn [bind]; [|discriminate].
  intros H. inversion H. split; reflexivity.
Qed.

Lemma from_request_scope_witness :
  from_request (lit "source-1") 100 request_a
  = Ok (mk (lit "source-1") 100 100 (lit "hooks") (lit "workspace-1") Empty
           (Some (lit "user-1")) Empty [] (lit "github") (lit "event_source")
           (lit "webhook") (lit "x") blob_a) /\
  lit "workspace-1" = EventSourceRequest.workspace request_a /\
  Some (lit "user-1") = EventSourceRequest.user request_a.
Proof.
  assert (H : from_request (lit "source-1") 100 request_a
              = Ok (mk (lit "source-1") 100 100 (lit "hooks")
                       (lit "workspace-1") Empty (Some (lit "user-1")) Empty []
                       (lit "github") (lit "event_source") (lit "webhook")
                       (lit "x") blob_a)) by reflexivity.
  split; [exact H|].
  exact (from_request_scope _ _ _ _ H).
Defined.

(** C6 as stated fails: a scope supplied next to the request has no way
    into the row.  With the calling context in [workspace_2] and no owner,
    the row built from [request_a] is in the workspace and belongs to the
    user named by the request. *)
Lemma from_request_trusts_the_request :
  ~ (forall (new_id : UUID) (now : datetime) (request : EventSourceRequest.t)
            (W : WorkspaceSchema.t) (O : option UserSchema.t) (row : t),
        from_request new_id now request = Ok row ->
        workspace_id row = WorkspaceSchema.id W /\
        user_id row = option_map UserSchema.id O).
Proof.
  intros H.
  destruct (from_request (lit "source-1") 100 request_a) as [row|] eqn:E;
    [|discriminate].
  destruct (H _ _ _ workspace_2 None row E) as [Hw _].
  vm_compute in E. inversion E; subst. discriminate.
Qed.





(** C8.  The two encoders differ.  [from_request] hands
    [pydantic_encoder] to [json.dumps] and stores a blob for a
    configuration that holds a UUID; [update], which calls [json.dumps]
    without it, raises [TypeError] on the same configuration, after it
    has written the name and before it stamps [updated]. *)
Theorem update_refuses_what_creation_encodes :
  (exists row,
      from_request (lit "source-1") 100 request_uuid = Ok row /\
      decode_configuration (configuration row)
      = Ok (Dict [(lit "source_id",
                   Str (lit "6fa459ea-ee8a-3ca4-894e-db77e160355e"))])) /\
  EventSourceRequest.configuration request_uuid = configuration_uuid /\
  EventSourceUpdate.configuration update_uuid = Some configuration_uuid /\
  snd (update row_a update_uuid 200) = Raise TypeError /\
  configuration (fst (update row_a update_uuid 200)) = configuration row_a /\
  name (fst (update row_a update_uuid 200)) = lit "renamed" /\
  updated (fst (update row_a update_uuid 200)) = updated row_a.
Proof.
  split.
  - eexists. split; [reflexivity|]. vm_compute. reflexivity.
  - repeat split; reflexivity.
Qed.

(** C10, as the code has it.  Every projection that returns has resolved
    the owner into the body, hydrated or not: the body's [user] is the
    converted user model when the row's [user] relationship holds a user
    schema and [None] otherwise, and the events of the call are those of
    the user resolution followed, in hydrated mode only, by the workspace
    resolution and the decoding. *)
Theorem owner_resolved_in_body
        (r : t) (h : bool) (resp : EventSourceResponse.t) :
  outcome (to_model r h) = Ok resp ->
  exists b,
    EventSourceResponse.body resp = Some b /\
    EventSourceResponseBody.user b
    = match user r with
      | Loaded u => Some (user_to_model u)
      | _ => None
      end /\
    trace (to_model r h) = projection_events r h.
Proof.
  intros H.
  destruct (ToModelFacts.to_model_returned r h resp H)
    as (_ & _ & Hb & Htr & _).
  exists (body_of r). split; [exact Hb|]. split; [reflexivity | exact Htr].
Qed.


Lemma owner_resolved_in_body_witness :
  outcome (to_model row_a false) = Ok response_unhydrated /\
  exists b,
    EventSourceResponse.body response_unhydrated = Some b /\
    EventSourceResponseBody.user b = Some (user_to_model user_1) /\
    trace (to_model row_a false) = [UserToModel].
Proof.
  assert (H : outcome (to_model row_a false) = Ok response_unhydrated)
    by reflexivity.
  split; [exact H|].
  exact (owner_resolved_in_body row_a false response_unhydrated H).
Defined.

(** C10 as stated fails: the projection looks at the [user] relationship,
    not at [user_id].  The row [from_request] returns for [request_a] has
    its [user_id] set and its relationship empty, and its projection has
    no user in the body. *)
Lemma owner_id_set_but_body_without_owner :
  from_request (lit "source-1") 100 request_a = Ok row_fresh /\
  user_id row_fresh = Some (lit "user-1") /\
  exists b,
    outcome (to_model row_fresh false)
    = Ok (EventSourceResponse.mk (lit "source-1") (lit "hooks") (Some b) None)
    /\ EventSourceResponseBody.user b = None.
Proof.
  split; [reflexivity|]. split; [reflexivity|].
  eexists. split; reflexivity.
Qed.

End Properties.

Module HydrationProperties.
Import Py Effects Hydration Samples.

(** C9, as the code has it.  [get_hydrated_version] goes to the store each
    time it is called, on a hydrated response as on an unhydrated one.
    What fetches at most once is the access to a metadata-backed field:
    when [description] returns, it has fetched once if the response had no
    metadata and not at all if it had, the response object it leaves
    behind answers every later access without a fetch and with the same
    value -- and asking that object for its hydrated version still
    fetches. *)
Theorem hydration_fetches
        (store : zen_store) (r r' : EventSourceResponse.t) (d : str) :
  outcome (description store r) = Ok (r', d) ->
  count is_fetch (trace (description store r))
  = match EventSourceResponse.metadata r with
    | Some _ => 0%nat
    | None => 1%nat
    end /\
  description store r' = ([], Ok (r', d)) /\
  count is_fetch (trace (get_hydrated_version store r)) = 1%nat /\
  count is_fetch (trace (get_hydrated_version store r')) = 1%nat.
Proof.
  intros H.
  split; [|split; [|split]];
    try apply HydrationFacts.get_hydrated_version_fetches.
  - destruct (EventSourceResponse.metadata r) as [m|] eqn:Hm.
    + now rewrite (HydrationFacts.description_hydrated store r m Hm).
    + destruct (HydrationFacts.description_unhydrated store r r' d Hm H)
        as (-> & _).
      apply HydrationFacts.get_hydrated_version_fetches.
  - destruct (EventSourceResponse.metadata r) as [m|] eqn:Hm.
    + rewrite (HydrationFacts.description_hydrated store r m Hm) in H.
      inversion H; subst.
      now apply HydrationFacts.description_hydrated.
    + destruct (HydrationFacts.description_unhydrated store r r' d Hm H)
        as (_ & m & -> & ->).
      now apply HydrationFacts.description_hydrated.
Qed.

Lemma hydration_fetches_witness :
  outcome (description store_a response_unhydrated)
  = Ok (response_hydrated, lit "x") /\
  count is_fetch (trace (description store_a response_unhydrated)) = 1%nat /\
  description store_a response_hydrated = ([], Ok (response_hydrated, lit "x")).
Proof.
  assert (H : outcome (description store_a response_unhydrated)
              = Ok (response_hydrated, lit "x")) by reflexivity.
  destruct (hydration_fetches store_a response_unhydrated response_hydrated
              (lit "x") H) as (H1 & H2 & _).
  split; [exact H|]. split; [exact H1 | exact H2].
Defined.

(** C9 as stated fails for [get_hydrated_version]: on a response that is
    already hydrated it is no no-op, it fetches the row again. *)
Lemma hydrated_response_is_fetched_again :
  EventSourceResponse.metadata response_hydrated = Some metadata_a /\
  trace (get_hydrated_version store_a response_hydrated)
  = [StoreFetch (lit "source-1"); UserToModel; WorkspaceToModel;
     ConfigurationDecode] /\
  count is_fetch (trace (get_hydrated_version store_a response_hydrated))
  <> 0%nat.
Proof.
  split; [reflexivity|]. split; [reflexivity | discriminate].
Qed.

End HydrationProperties.

(* ================================================================== *)
(** * Part VI: further properties of the row and its codec             *)
(* ================================================================== *)

(** ** Values the pydantic encoder takes part in *)

Module NormalFacts.
Import Py Json Normal.






End NormalFacts.

(** ** Base64 text *)

Module Base64Shape.
Import Py Base64 Text Normal Base64Facts.

Lemma a2b_loop_skip (x : Z) (s : bytes) (q l p : Z) (out : bytes) :
  significant x = false ->
  a2b_loop (x :: s) q l p out = a2b_loop s q l p out.
Proof.
  unfold significant. intros H. apply orb_false_iff in H.
  destruct H as [H1 H2]. cbn [a2b_loop]. rewrite H2.
  apply Z.ltb_ge in H1.
  replace (64 <=? a2b x) with true by (symmetry; apply Z.leb_le; lia).
  reflexivity.
Qed.

(** The scanner does not see the octets outside the alphabet. *)
Lemma a2b_loop_filter (s : bytes) :
  forall q l p out,
    a2b_loop (filter significant s) q l p out = a2b_loop s q l p out.
Proof.
  induction s as [|x s IH]; intros q l p out; [reflexivity|].
  cbn [filter]. destruct (significant x) eqn:E.
  - cbn [a2b_loop].
    repeat match goal with
           | |- context [if ?b then _ else _] => destruct b
           end; try reflexivity; apply IH.
  - rewrite a2b_loop_skip by assumption. apply IH.
Qed.

Lemma b2a_significant (k : Z) : 0 <= k < 64 -> significant (b2a k) = true.
Proof.
  intros Hk. destruct (alphabet_inverse k Hk) as [_ H].
  unfold significant. rewrite H.
  replace (k <? 64) with true by (symmetry; apply Z.ltb_lt; lia).
  reflexivity.
Qed.

Lemma b64encode_text (s : bytes) :
  Forall octet s ->
  Forall (fun c => significant c = true) (b64encode s) /\
  (List.length (b64encode s) mod 4 = 0)%nat.
Proof.
  induction s as [|a|a b|a b c s IH] using list_ind3; intros Hs.
  - split; [constructor | reflexivity].
  - inversion Hs as [|? ? Ha _]; subst. unfold octet in Ha.
    cbn [b64encode]. split; [|reflexivity].
    rewrite shr2, land3, shl4.
    repeat constructor; try reflexivity; apply b2a_significant; divmod.
  - inversion Hs as [|? ? Ha Hs']; subst.
    inversion Hs' as [|? ? Hb _]; subst.
    cbn [b64encode]. split; [|reflexivity].
    rewrite shr2, sextet2, land15, shl2 by assumption. unfold octet in *.
    repeat constructor; try reflexivity; apply b2a_significant; divmod.
  - inversion Hs as [|? ? Ha Hs1]; subst.
    inversion Hs1 as [|? ? Hb Hs2]; subst.
    inversion Hs2 as [|? ? Hc Hs3]; subst.
    destruct (IH Hs3) as [IH1 IH2].
    cbn [b64encode]. split.
    + rewrite shr2, sextet2, sextet3, land63 by assumption. unfold octet in *.
      repeat (constructor; [apply b2a_significant; divmod|]). exact IH1.
    + cbn [List.length].
      change (S (S (S (S (List.length (b64encode s))))))
        with (4 + List.length (b64encode s))%nat.
      rewrite Nat.Div0.add_mod by lia. rewrite IH2. reflexivity.
Qed.

End Base64Shape.

(** ** UTF-8 octets *)

Module Utf8Octets.
Import Py Utf8 Text Base64Facts.

Lemma cont_octet (c k : Z) : 0 <= k -> octet (cont c k).
Proof.
  intros Hk. unfold cont, octet.
  change 0x3F with 63. rewrite land63.
  change 0x80 with (Z.shiftl 2 6). rewrite lor_shl6 by divmod. divmod.
Qed.

Lemma lor_low (h l k : Z) :
  0 <= k -> 0 <= l < 2 ^ k -> Z.lor (h * 2 ^ k) l = h * 2 ^ k + l.
Proof.
  intros Hk Hl. rewrite <- (lor_shiftl_low h l k Hk Hl).
  now rewrite Z.shiftl_mul_pow2.
Qed.

Lemma ok_inj {A : Type} (x y : A) : Ok x = Ok y -> x = y.
Proof. congruence. Qed.

Lemma encode_char_octets (c : Z) (b : bytes) :
  encode_char c = Ok b -> Forall octet b.
Proof.
  unfold encode_char.
  destruct ((c <? 0) || (1114111 <? c) || is_surrogate c) eqn:E;
    [discriminate|].
  apply orb_false_iff in E. destruct E as [E _].
  apply orb_false_iff in E. destruct E as [E1 E2].
  apply Z.ltb_ge in E1, E2.
  destruct (Z.ltb_spec c 128).
  { intros H'. apply ok_inj in H'. subst b. repeat constructor; unfold octet; lia. }
  destruct (Z.ltb_spec c 2048).
  { intros H'. apply ok_inj in H'. subst b. constructor; [|repeat constructor; apply cont_octet; lia].
    rewrite Z.shiftr_div_pow2 by lia. change (2 ^ 6) with 64.
    change 192 with (3 * 2 ^ 6). rewrite lor_low by (try lia; change (2^6) with 64; divmod).
    unfold octet. change (2 ^ 6) with 64. divmod. }
  destruct (Z.ltb_spec c 65536).
  { intros H'. apply ok_inj in H'. subst b. constructor; [|repeat constructor; apply cont_octet; lia].
    rewrite Z.shiftr_div_pow2 by lia. change (2 ^ 12) with 4096.
    change 224 with (7 * 2 ^ 5). rewrite lor_low by (try lia; change (2^5) with 32; divmod).
    unfold octet. change (2 ^ 5) with 32. divmod. }
  intros H'. apply ok_inj in H'. subst b. constructor; [|repeat constructor; apply cont_octet; lia].
  rewrite Z.shiftr_div_pow2 by lia. change (2 ^ 18) with 262144.
  change 240 with (15 * 2 ^ 4). rewrite lor_low by (try lia; change (2^4) with 16; divmod).
  unfold octet. change (2 ^ 4) with 16. divmod.
Qed.

(** Whatever [str.encode] returns is a sequence of octets. *)
Lemma encode_octets (s : str) :
  forall raw, encode s = Ok raw -> Forall octet raw.
Proof.
  induction s as [|c s IH]; intros raw H.
  - inversion H. constructor.
  - cbn [encode] in H.
    destruct (encode_char c) as [b|] eqn:Ec; [|discriminate].
    destruct (encode s) as [bs|] eqn:Es; [|discriminate].
    cbn [bind] in H. inversion H; subst.
    apply Forall_app. split; [now apply encode_char_octets in Ec | now apply IH].
Qed.

End Utf8Octets.

(** ** What the encoder without a hook refuses *)

Module PlainEncoder.
Import Py Json Normal.






End PlainEncoder.

(** ** The blob of any configuration *)

Module BlobFacts.
Import Py Json Normal EventSourceSchema.

Lemma encode_configuration_text
      (default : option (object -> result value)) (v : value) (blob : bytes) :
  encode_configuration default v = Ok blob ->
  base64_text blob = true /\ exists raw, Base64.b64decode blob = Ok raw.
Proof.
  unfold encode_configuration.
  destruct (dumps default v) as [txt|]; [|discriminate]. cbn [bind].
  destruct (Utf8.encode txt) as [raw|] eqn:E; [|discriminate]. cbn [bind].
  intros H. apply Utf8Octets.ok_inj in H. subst blob.
  pose proof (Utf8Octets.encode_octets txt raw E) as Hraw.
  destruct (Base64Shape.b64encode_text raw Hraw) as [H1 H2].
  split.
  - unfold base64_text. apply andb_true_intro. split.
    + apply forallb_forall. intros x Hx.
      rewrite Forall_forall in H1. now apply H1.
    + apply Nat.eqb_eq. exact H2.
  - exists raw. now apply Base64Facts.b64decode_b64encode.
Qed.

Lemma decode_configuration_filter (blob : bytes) :
  decode_configuration (filter significant blob) = decode_configuration blob.
Proof.
  unfold decode_configuration, Base64.b64decode.
  now rewrite Base64Shape.a2b_loop_filter.
Qed.

End BlobFacts.

(** ** Updates one after the other *)

Module UpdateMerge.
Import Py Effects EventSourceSchema Patch Normal.

Lemma patched_then (r : t) (u1 u2 : EventSourceUpdate.t) :
  patched (patched r u1) u2 = patched r (then_ u1 u2).
Proof.
  destruct u1 as [a1 b1 c1 d1 e1 f1 g1 h1 i1].
  destruct u2 as [a2 b2 c2 d2 e2 f2 g2 h2 i2].
  unfold patched, then_.
  cbn [EventSourceUpdate.user EventSourceUpdate.workspace
       EventSourceUpdate.name EventSourceUpdate.description
       id created updated name workspace_id workspace user_id user triggers
       flavor plugin_type plugin_subtype description configuration].
  destruct a2, b2, c2, g2; reflexivity.
Qed.

Lemma configuration_then (u1 u2 : EventSourceUpdate.t) :
  EventSourceUpdate.configuration (then_ u1 u2)
  = later (EventSourceUpdate.configuration u1)
          (EventSourceUpdate.configuration u2).
Proof. reflexivity. Qed.

Lemma patched_set (r : t) (u : EventSourceUpdate.t) (blob : bytes)
      (now : datetime) :
  patched (set_updated (set_configuration r blob) now) u
  = set_updated (set_configuration (patched r u) blob) now.
Proof. reflexivity. Qed.

Lemma patched_set_updated (r : t) (u : EventSourceUpdate.t) (now : datetime) :
  patched (set_updated r now) u = set_updated (patched r u) now.
Proof. reflexivity. Qed.

(** The row a returning update leaves. *)
Lemma update_ok_row (r : t) (u : EventSourceUpdate.t) (now : datetime) :
  snd (update r u now) = Ok tt ->
  exists blob,
    fst (update r u now)
    = set_updated (set_configuration (patched r u) blob) now /\
    match EventSourceUpdate.configuration u with
    | Some c => encode_configuration None (Dict c) = Ok blob
    | None => blob = configuration r
    end.
Proof.
  rewrite UpdateFacts.update_closed.
  destruct (EventSourceUpdate.configuration u) as [c|].
  - destruct (encode_configuration None (Dict c)) as [blob|e];
      [|discriminate].
    intros _. exists blob. split; reflexivity.
  - intros _. exists (configuration r). split; [|reflexivity].
    destruct r; reflexivity.
Qed.

End UpdateMerge.

(* ================================================================== *)
(** * Part VII: further properties of the row                          *)
(* ================================================================== *)

Module Extras.
Import Py Json Effects EventSourceSchema Patch Normal Samples Scenarios.





(** X3.  Rows created from JSON configurations carry the same blob only
    if the configurations are the same, key order included. *)
Theorem equal_blobs_equal_configurations
        (id1 id2 : UUID) (t1 t2 : datetime)
        (q1 q2 : EventSourceRequest.t) (row1 row2 : t) :
  json_compatible (Dict (EventSourceRequest.configuration q1)) = true ->
  json_compatible (Dict (EventSourceRequest.configuration q2)) = true ->
  from_request id1 t1 q1 = Ok row1 ->
  from_request id2 t2 q2 = Ok row2 ->
  configuration row1 = configuration row2 ->
  EventSourceRequest.configuration q1 = EventSourceRequest.configuration q2.
Proof.
  intros H1 H2 F1 F2 Hb.
  destruct (CodecFacts.decode_encode_configuration
              (Some Pydantic.pydantic_encoder) _ H1) as (b1 & E1 & D1).
  destruct (CodecFacts.decode_encode_configuration
              (Some Pydantic.pydantic_encoder) _ H2) as (b2 & E2 & D2).
  unfold from_request in F1, F2. rewrite E1 in F1. rewrite E2 in F2.
  cbn [bind] in F1, F2.
  apply Utf8Octets.ok_inj in F1. apply Utf8Octets.ok_inj in F2.
  subst row1 row2. cbn [configuration] in Hb. subst b2.
  congruence.
Qed.

Lemma equal_blobs_equal_configurations_witness :
  from_request (lit "source-1") 100 request_a = Ok row_fresh /\
  EventSourceRequest.configuration request_a
  = EventSourceRequest.configuration
      (EventSourceRequest.mk None (lit "workspace-2") (lit "other")
         (lit "github") (lit "event_source") (lit "webhook") (lit "z")
         configuration_a).
Proof.
  split; [vm_compute; reflexivity|].
  apply (equal_blobs_equal_configurations
           (lit "source-1") (lit "source-2") 100 300
           request_a
           (EventSourceRequest.mk None (lit "workspace-2") (lit "other")
              (lit "github") (lit "event_source") (lit "webhook") (lit "z")
              configuration_a)
           row_fresh
           (mk (lit "source-2") 300 300 (lit "other") (lit "workspace-2")
               Empty None Empty [] (lit "github") (lit "event_source")
               (lit "webhook") (lit "z") blob_a));
    vm_compute; reflexivity.
Defined.





(** X6.  Two updates that return, one after the other, leave the row
    that the single update [then_ u1 u2] leaves at the time of the second:
    for each field the later value that was set. *)
Theorem successive_updates_merge
        (r : t) (u1 u2 : EventSourceUpdate.t) (t1 t2 : datetime) :
  snd (update r u1 t1) = Ok tt ->
  snd (update (fst (update r u1 t1)) u2 t2) = Ok tt ->
  update (fst (update r u1 t1)) u2 t2 = update r (then_ u1 u2) t2.
Proof.
  intros H1 H2.
  destruct (UpdateMerge.update_ok_row r u1 t1 H1) as (b1 & R1 & E1).
  rewrite R1 in *.
  rewrite UpdateFacts.update_closed in H2.
  rewrite !UpdateFacts.update_closed, UpdateMerge.configuration_then.
  rewrite UpdateMerge.patched_set, UpdateMerge.patched_then in *.
  destruct (EventSourceUpdate.configuration u2) as [c2|]; cbn [later].
  - destruct (encode_configuration None (Dict c2)) as [b2|e2];
      [reflexivity | discriminate].
  - destruct (EventSourceUpdate.configuration u1) as [c1|].
    + rewrite E1. reflexivity.
    + subst b1. destruct r; reflexivity.
Qed.

Lemma successive_updates_merge_witness :
  snd (update row_a update_retune 200) = Ok tt /\
  update (fst (update row_a update_retune 200)) update_rename 300
  = update row_a (then_ update_retune update_rename) 300.
Proof.
  split; [vm_compute; reflexivity|].
  apply (successive_updates_merge row_a update_retune update_rename 200 300);
    vm_compute; reflexivity.
Defined.

(** X7.  Applying an update a second time gives the row and the outcome
    of applying it once at the later time: a retry changes nothing but the
    stamp, and a failed update fails again. *)
Theorem update_is_idempotent
        (r : t) (u : EventSourceUpdate.t) (now now' : datetime) :
  update (fst (update r u now)) u now' = update r u now'.
Proof.
  assert (Hp : forall x, patched (patched x u) u = patched x u).
  { intros x. destruct u as [a b c d e f g h i]. unfold patched.
    cbn [EventSourceUpdate.user EventSourceUpdate.workspace
         EventSourceUpdate.name EventSourceUpdate.description
         id created updated name workspace_id workspace user_id user triggers
         flavor plugin_type plugin_subtype description configuration].
    destruct a, b, c, g; reflexivity. }
  rewrite (UpdateFacts.update_closed r u now).
  destruct (EventSourceUpdate.configuration u) as [c|] eqn:Hu.
  - destruct (encode_configuration None (Dict c)) as [blob|e] eqn:He;
      cbn [fst]; rewrite !UpdateFacts.update_closed, Hu, He.
    + rewrite UpdateMerge.patched_set, Hp. reflexivity.
    + rewrite Hp. reflexivity.
  - cbn [fst]. rewrite !UpdateFacts.update_closed, Hu.
    rewrite UpdateMerge.patched_set_updated, Hp. reflexivity.
Qed.

(** X8.  The decoder of the blob looks only at the characters of the
    Base64 alphabet and the pad: two blobs that agree on those decode
    alike, and rows that differ only by such blobs have the same
    projections. *)
Theorem decoding_skips_foreign_characters (b1 b2 : bytes) :
  filter significant b1 = filter significant b2 ->
  decode_configuration b1 = decode_configuration b2 /\
  forall r h,
    to_model (set_configuration r b1) h = to_model (set_configuration r b2) h.
Proof.
  intros H.
  assert (Hd : decode_configuration b1 = decode_configuration b2).
  { rewrite <- (BlobFacts.decode_configuration_filter b1),
      <- (BlobFacts.decode_configuration_filter b2).
    now rewrite H. }
  split; [exact Hd|].
  intros r h. destruct r as [i c up n wi w ui us tr f pt ps d cfg].
  unfold to_model, set_configuration, resolve_user, resolve_workspace.
  cbn [id created updated name workspace_id workspace user_id user triggers
       flavor plugin_type plugin_subtype description configuration].
  now rewrite Hd.
Qed.

Lemma decoding_skips_foreign_characters_witness :
  filter significant blob_a_wrapped = filter significant blob_a /\
  decode_configuration blob_a_wrapped = decode_configuration blob_a /\
  forall r h,
    to_model (set_configuration r blob_a_wrapped) h
    = to_model (set_configuration r blob_a) h.
Proof.
  split; [vm_compute; reflexivity|].
  apply (decoding_skips_foreign_characters blob_a_wrapped blob_a).
  vm_compute. reflexivity.
Defined.

(** X9.  Whatever [from_request] or [update] writes into the
    configuration column is Base64 text: characters of the alphabet and
    pads only, in groups of four, which the Base64 step of the decoder
    accepts. *)
Theorem stored_blobs_are_base64_text :
  (forall new_id now request row,
      from_request new_id now request = Ok row ->
      base64_text (configuration row) = true /\
      exists raw, Base64.b64decode (configuration row) = Ok raw) /\
  (forall r u now c,
      EventSourceUpdate.configuration u = Some c ->
      snd (update r u now) = Ok tt ->
      base64_text (configuration (fst (update r u now))) = true /\
      exists raw,
        Base64.b64decode (configuration (fst (update r u now))) = Ok raw).
Proof.
  split.
  - intros new_id now request row. unfold from_request.
    destruct (encode_configuration (Some Pydantic.pydantic_encoder) _)
      as [blob|] eqn:E; [|discriminate].
    cbn [bind]. intros H. apply Utf8Octets.ok_inj in H. subst row.
    cbn [configuration].
    exact (BlobFacts.encode_configuration_text _ _ _ E).
  - intros r u now c Hu. rewrite UpdateFacts.update_closed, Hu.
    destruct (encode_configuration None (Dict c)) as [blob|] eqn:E;
      [|discriminate].
    intros _. cbn [fst set_updated set_configuration configuration].
    exact (BlobFacts.encode_configuration_text _ _ _ E).
Qed.



(** X11.  What the projections show after an update that returned and
    left the owner and the workspace alone, on a row loaded with its
    relationships: the new name and description where set, the time of the
    update as [updated], the identity and the owner as before; a JSON
    configuration that was set replaces the old one whole, and one that
    was not set is shown unchanged. *)
Theorem projection_after_update
        (r : t) (u : EventSourceUpdate.t) (now : datetime) :
  attached r = true ->
  EventSourceUpdate.user u = None ->
  EventSourceUpdate.workspace u = None ->
  snd (update r u now) = Ok tt ->
  let r' := fst (update r u now) in
  let name' := or_else (EventSourceUpdate.name u) (name r) in
  let body' :=
    EventSourceResponseBody.mk (created r) now (body_user r)
      (flavor r) (plugin_type r) (plugin_subtype r) in
  outcome (to_model r' false)
  = Ok (EventSourceResponse.mk (id r) name' (Some body') None) /\
  (forall c,
      EventSourceUpdate.configuration u = Some c ->
      json_compatible (Dict c) = true ->
      exists w,
        workspace r = Loaded w /\
        outcome (to_model r' true)
        = Ok (EventSourceResponse.mk (id r) name' (Some body')
                (Some (EventSourceResponseMetadata.mk (workspace_to_model w)
                         (or_else (EventSourceUpdate.description u)
                                  (description r))
                         c)))) /\
  (forall resp m,
      EventSourceUpdate.configuration u = None ->
      outcome (to_model r true) = Ok resp ->
      EventSourceResponse.metadata resp = Some m ->
      outcome (to_model r' true)
      = Ok (EventSourceResponse.mk (id r) name' (Some body')
              (Some (EventSourceResponseMetadata.mk
                       (EventSourceResponseMetadata.workspace m)
                       (or_else (EventSourceUpdate.description u)
                                (description r))
                       (EventSourceResponseMetadata.configuration m))))).
Proof.
  intros Ha Huu Huw Hok. cbv zeta.
  destruct (UpdateMerge.update_ok_row r u now Hok) as (blob & -> & Hblob).
  pose proof Ha as Ha'. unfold attached in Ha'.
  destruct (workspace r) as [|w|] eqn:Hw; try discriminate.
  set (r' := set_updated (set_configuration (patched r u) blob) now).
  assert (Hw' : workspace r' = Loaded w).
  { unfold r', set_updated, set_configuration, patched.
    cbn [workspace]. now rewrite Huw. }
  assert (Hus : user r' = user r).
  { unfold r', set_updated, set_configuration, patched.
    cbn [user]. now rewrite Huu. }
  assert (Ht' : user_typed r' = true).
  { unfold user_typed in *. now rewrite Hus. }
  assert (Hb : body_of r'
               = EventSourceResponseBody.mk (created r) now (body_user r)
                   (flavor r) (plugin_type r) (plugin_subtype r)).
  { unfold body_of, body_user. rewrite Hus. reflexivity. }
  split; [|split].
  - rewrite (ToModelFacts.to_model_unhydrated r' Ht'), Hb. reflexivity.
  - intros c Hc Hj. rewrite Hc in Hblob.
    destruct (CodecFacts.decode_encode_configuration None (Dict c) Hj)
      as (blob' & Hb' & Hd).
    assert (blob' = blob) by congruence. subst blob'.
    exists w. split; [reflexivity|].
    rewrite (ToModelFacts.to_model_hydrated r' w Hw' Ht'), Hb.
    unfold outcome. cbn [snd].
    change (configuration r') with blob. rewrite Hd.
    reflexivity.
  - intros resp m Hc Hr Hm. rewrite Hc in Hblob. subst blob.
    rewrite (ToModelFacts.to_model_hydrated r w Hw Ha') in Hr.
    rewrite (ToModelFacts.to_model_hydrated r' w Hw' Ht'), Hb.
    unfold outcome in *. cbn [snd] in *.
    change (configuration r') with (configuration r).
    destruct (decode_configuration (configuration r)) as [v|];
      [|discriminate].
    destruct (Pydantic.validate_dict v) as [c'|]; [|discriminate].
    apply Utf8Octets.ok_inj in Hr. subst resp.
    cbn [EventSourceResponse.metadata] in Hm.
    apply (f_equal (fun o => match o with Some x => x | None => m end)) in Hm.
    subst m. reflexivity.
Qed.

Lemma projection_after_update_witness :
  attached row_a = true /\
  snd (update row_a update_retune 200) = Ok tt /\
  outcome (to_model (fst (update row_a update_retune 200)) true)
  = Ok (EventSourceResponse.mk (lit "source-1") (lit "renamed")
          (Some (EventSourceResponseBody.mk 100 200
                   (Some (user_to_model user_1))
                   (lit "github") (lit "event_source") (lit "webhook")))
          (Some (EventSourceResponseMetadata.mk
                   (workspace_to_model workspace_1) (lit "y")
                   [(lit "threshold", Int 6)]))).
Proof.
  split; [reflexivity|]. split; [vm_compute; reflexivity|].
  destruct (projection_after_update row_a update_retune 200
              eq_refl eq_refl eq_refl eq_refl) as (_ & H & _).
  destruct (H [(lit "threshold", Int 6)] eq_refl eq_refl) as (w & Hw & Hr).
  injection Hw as <-. exact Hr.
Defined.

End Extras.
